(** * SoundSynth: the K35 and ResonanceWarp quad filters of sst-filters

    A shallow embedding of
      libs/sst/sst-filters/include/sst/filters/K35Filter.h
      libs/sst/sst-filters/include/sst/filters/ResonanceWarp.h
    and of [setMode], [reset] and [processSample] of
      libs/JUCE/modules/juce_dsp/widgets/juce_LadderFilter.cpp
    over IEEE-754 binary32 arithmetic (round to nearest, ties to even), as
    given by the Standard Library's [SpecFloat] with [prec = 24] and
    [emax = 128].  A [SIMD_M128] is a record of four binary32 lanes. *)

From Stdlib Require Import ZArith Bool List Lia.
From Stdlib Require Import Floats.SpecFloat.
From stdpp Require Import base list.

Local Open Scope Z_scope.

(** ** Binary32 scalars *)

Module F32.

Definition prec : Z := 24.
Definition emax : Z := 128.

Definition f32 : Type := spec_float.

Definition add : f32 -> f32 -> f32 := SFadd prec emax.
Definition sub : f32 -> f32 -> f32 := SFsub prec emax.
Definition mul : f32 -> f32 -> f32 := SFmul prec emax.
Definition div : f32 -> f32 -> f32 := SFdiv prec emax.
Definition neg : f32 -> f32 := SFopp.

(** C's [a < b] and [a <= b] on floats: false as soon as one side is a NaN. *)
Definition lt : f32 -> f32 -> bool := SFltb.
Definition le : f32 -> f32 -> bool := SFleb.

Definition is_nan (x : f32) : bool :=
  match x with S754_nan => true | _ => false end.

Definition is_zero (x : f32) : bool :=
  match x with S754_zero _ => true | _ => false end.

(** Finite: a zero or a finite non-zero number (neither NaN nor infinite). *)
Definition is_finite (x : f32) : bool :=
  match x with S754_zero _ | S754_finite _ _ _ => true | _ => false end.

Definition pzero : f32 := S754_zero false.

(** The float nearest to an integer, and to a ratio of two integers (one
    rounding of the exact quotient, which is how a decimal literal such as
    [1.96f] is read). *)
Definition of_Z (n : Z) : f32 := binary_normalize prec emax n 0 false.
Definition of_ratio (n d : Z) : f32 := div (of_Z n) (of_Z d).

(** [std::clamp(v, lo, hi)]: [lo] if [v < lo], [hi] if [hi < v], else [v].
    The standard requires that [hi < lo] does not hold and leaves the call
    undefined otherwise. *)
Definition clamp (v lo hi : f32) : f32 :=
  if lt v lo then lo else if lt hi v then hi else v.

(** The other common way to compute it, [std::min(std::max(v, lo), hi)] with
    [max(a, b) = a < b ? b : a] and [min(a, b) = b < a ? b : a].  It is the
    same function wherever the standard defines the call (lemma
    [clamp_is_min_max]); with [hi < lo] and [v < lo] it gives [hi] where
    [clamp] gives [lo]. *)
Definition clamp_min_max (v lo hi : f32) : f32 :=
  let m := if lt v lo then lo else v in
  if lt hi m then hi else m.

(** [fminf(x, y)]: the smaller one; a NaN operand is ignored. *)
Definition fminf (x y : f32) : f32 :=
  if is_nan x then y else if is_nan y then x else if lt x y then x else y.

(** The literals of the two headers. *)
Definition c0    : f32 := pzero.                                (* 0.f *)
Definition c1    : f32 := Eval vm_compute in of_Z 1.            (* 1.0f *)
Definition c2    : f32 := Eval vm_compute in of_Z 2.            (* 2.0f *)
Definition cm2   : f32 := Eval vm_compute in of_Z (-2).         (* -2.0f *)
Definition c5    : f32 := Eval vm_compute in of_Z 5.            (* 5.f *)
Definition c18   : f32 := Eval vm_compute in of_Z 18.           (* 18.0f *)
Definition c69   : f32 := Eval vm_compute in of_Z 69.           (* 69.0f *)
Definition c0_5  : f32 := Eval vm_compute in of_ratio 1 2.      (* 0.5f *)
Definition cm0_5 : f32 := Eval vm_compute in of_ratio (-1) 2.   (* -0.5f *)
Definition c0_1  : f32 := Eval vm_compute in of_ratio 1 10.     (* 0.1f *)
Definition c0_3  : f32 := Eval vm_compute in of_ratio 3 10.     (* 0.3f *)
Definition c0_01 : f32 := Eval vm_compute in of_ratio 1 100.    (* 0.01f *)
Definition c1_96 : f32 := Eval vm_compute in of_ratio 196 100.  (* 1.96f *)
(** [(float)M_PI] = 0x40490FDB. *)
Definition cPI   : f32 := S754_finite false 13176795 (-22).

End F32.

Import F32.

(** ** Lane groups: [SIMD_M128], four binary32 lanes *)

Record m128 : Type := M128 { lane0 : f32; lane1 : f32; lane2 : f32; lane3 : f32 }.

Inductive lane : Type := L0 | L1 | L2 | L3.

Definition get_lane (i : lane) (v : m128) : f32 :=
  match i with
  | L0 => lane0 v | L1 => lane1 v | L2 => lane2 v | L3 => lane3 v
  end.

Definition lift1 (op : f32 -> f32) (a : m128) : m128 :=
  M128 (op (lane0 a)) (op (lane1 a)) (op (lane2 a)) (op (lane3 a)).

Definition lift2 (op : f32 -> f32 -> f32) (a b : m128) : m128 :=
  M128 (op (lane0 a) (lane0 b)) (op (lane1 a) (lane1 b))
       (op (lane2 a) (lane2 b)) (op (lane3 a) (lane3 b)).

(** The [SIMD_MM] intrinsics behind the macros F, M, D, A and S. *)
Definition set_ps1 (a : f32) : m128 := M128 a a a a.
Definition mul_ps : m128 -> m128 -> m128 := lift2 mul.
Definition div_ps : m128 -> m128 -> m128 := lift2 div.
Definition add_ps : m128 -> m128 -> m128 := lift2 add.
Definition sub_ps : m128 -> m128 -> m128 := lift2 sub.

Definition setzero_ps : m128 := set_ps1 pzero.

#[global] Instance f32_inhabited : Inhabited f32 := populate pzero.
#[global] Instance m128_inhabited : Inhabited m128 := populate setzero_ps.

(** ** The collaborators that live outside the two headers *)

(** The [TuningProvider] template parameter: one operation and one constant
    (the constant is used through its cast to [float]). *)
Class TuningProvider : Type := {
  note_to_pitch_ignoring_tuning : f32 -> f32;
  MIDI_0_FREQ : f32
}.

(** [sst/basic-blocks/dsp/FastMath.h] and [Clippers.h].  The two saturators
    work on a lane group; they are taken lane by lane, as every SSE operation
    they can be built from is. *)
Class FastMath : Type := {
  fasttan : f32 -> f32;
  fastsin : f32 -> f32;
  fastcos : f32 -> f32;
  fasttanh_lane : f32 -> f32;
  softclip_lane : f32 -> f32
}.

Definition fasttanhSSEclamped {fm : FastMath} : m128 -> m128 := lift1 fasttanh_lane.
Definition softclip_ps {fm : FastMath} : m128 -> m128 := lift1 softclip_lane.

(** The ResonanceWarp members of [FilterType] ([FilterConfiguration.h]);
    any other value of [type] takes the [default:] branch (allpass). *)
Class FilterTypes : Type := {
  fut_resonancewarp_lp : Z;
  fut_resonancewarp_hp : Z;
  fut_resonancewarp_n : Z;
  fut_resonancewarp_bp : Z
}.

(** ** [QuadFilterUnitState]: current coefficients, deltas, registers *)

(** Modelled from the spec: [n_cm_coeffs], the slot count of [C] and [dC]
    declared in [FilterCoefficientMaker.h]: ``8 slots for both families''. *)
Definition n_cm_coeffs : nat := 8.

Record QuadFilterUnitState : Type := QFU {
  C : list m128;
  dC : list m128;
  R : list m128
}.

(** Array cells: [a !!! i] reads, [<[i := v]> a] writes.  A state is well
    formed when [C] and [dC] have [n_cm_coeffs] cells and [R] has room for
    the registers of either family (eight), so that every access of the two
    headers is in range. *)
Definition wf_state (f : QuadFilterUnitState) : Prop :=
  length (C f) = n_cm_coeffs /\ length (dC f) = n_cm_coeffs /\ (8 <= length (R f))%nat.

Definition set_C (i : nat) (v : m128) (f : QuadFilterUnitState) : QuadFilterUnitState :=
  QFU (<[i := v]> (C f)) (dC f) (R f).

Definition set_R (i : nat) (v : m128) (f : QuadFilterUnitState) : QuadFilterUnitState :=
  QFU (C f) (dC f) (<[i := v]> (R f)).

(** A unit loaded with the coefficient vector [N] and reset: [N] in all four
    lanes of [C], no ramp (every [dC] zero) and [nreg] registers, all zero. *)
Definition fresh_unit (N : list f32) (nreg : nat) : QuadFilterUnitState :=
  QFU (set_ps1 <$> N) (replicate (length N) setzero_ps) (replicate nreg setzero_ps).

(** The coefficient loop both headers contain,
    [for (int i = 0; i < n; ++i) f->C[i] = A(f->C[i], f->dC[i]);]
    with [n = n_cm_coeffs] in K35Filter.h and [n = n_nls_coeff] in
    ResonanceWarp.h. *)
Definition advance_loop (n : nat) (f : QuadFilterUnitState) : QuadFilterUnitState :=
  foldl (fun f i => set_C i (add_ps (C f !!! i) (dC f !!! i)) f) f (seq 0 n).

(** [n] consecutive per-sample calls of [proc], one per input lane group, as
    the block loop of a host issues them: the outputs in order and the state
    left behind. *)
Fixpoint process_block (proc : QuadFilterUnitState -> m128 -> m128 * QuadFilterUnitState)
    (f : QuadFilterUnitState) (inputs : list m128) : list m128 * QuadFilterUnitState :=
  match inputs with
  | [] => ([], f)
  | x :: rest =>
      let '(y, f) := proc f x in
      let '(ys, f) := process_block proc f rest in
      (y :: ys, f)
  end.

(** ** K35Filter.h *)

Module K35Filter.

Section K35.
Context {tuning : TuningProvider} {fm : FastMath}.

Definition clampedFrequency (pitch sampleRate : f32) : f32 :=
  let freq := mul (note_to_pitch_ignoring_tuning (add pitch c69)) MIDI_0_FREQ in
  clamp freq c5 (mul sampleRate c0_3).

(** [doLpf] updates its reference argument [z]: the new [z] is returned
    next to the result. *)
Definition doLpf (G input z : m128) : m128 * m128 :=
  let v := mul_ps (sub_ps input z) G in
  let result := add_ps v z in
  let z := add_ps v result in
  (result, z).

Definition doHpf (G input z : m128) : m128 * m128 :=
  let '(l, z) := doLpf G input z in
  (sub_ps input l, z).

(** [enum k35_coeffs] *)
Definition k35_G : nat := 0.
Definition k35_lb : nat := 1.
Definition k35_hb : nat := 2.
Definition k35_k : nat := 3.
Definition k35_alpha : nat := 4.
Definition k35_saturation : nat := 5.
Definition k35_saturation_blend : nat := 6.
Definition k35_saturation_blend_inv : nat := 7.

(** [enum k35_state] *)
Definition k35_lz : nat := 0.
Definition k35_hz : nat := 1.
Definition k35_2z : nat := 2.

(** [k] clamped to [0.01 .. 1.96], as the conditional expression does it. *)
Definition clamp_k (k : f32) : f32 :=
  if lt c1_96 k then c1_96 else if lt k c0_01 then c0_01 else k.

(** [makeCoefficients]; the result is the array [C] it hands to
    [cm->FromDirect]. *)
Definition makeCoefficients (freq reso : f32) (is_lowpass : bool)
    (saturation sampleRate sampleRateInv : f32) : list f32 :=
  let C := replicate n_cm_coeffs c0 in
  let wd := mul (mul (clampedFrequency freq sampleRate) c2) cPI in
  let wa := mul (mul c2 sampleRate) (fasttan (mul (mul wd sampleRateInv) c0_5)) in
  let g := mul (mul wa sampleRateInv) c0_5 in
  let gp1 := add c1 g in
  let G := div g gp1 in
  let k := mul reso c1_96 in
  let mk := clamp_k k in
  let C := <[k35_G := G]> C in
  let C :=
    if is_lowpass
    then <[k35_hb := div (neg c1) gp1]> (<[k35_lb := div (sub mk (mul mk G)) gp1]> C)
    else <[k35_hb := div (neg G) gp1]> (<[k35_lb := div c1 gp1]> C) in
  let C := <[k35_k := mk]> C in
  let C := <[k35_alpha := div c1 (add (sub c1 (mul mk G)) (mul (mul mk G) G))]> C in
  let C := <[k35_saturation := saturation]> C in
  let C := <[k35_saturation_blend := fminf saturation c1]> C in
  let C := <[k35_saturation_blend_inv := sub c1 (C !!! k35_saturation_blend)]> C in
  C.

Definition processCoeffs (f : QuadFilterUnitState) : QuadFilterUnitState :=
  advance_loop n_cm_coeffs f.

(** The body of [process_lp] after its call of [processCoeffs]. *)
Definition lp_recurrence (f : QuadFilterUnitState) (input : m128)
    : m128 * QuadFilterUnitState :=
  let '(y1, z) := doLpf (C f !!! k35_G) input (R f !!! k35_lz) in
  let f := set_R k35_lz z f in
  let s35 := add_ps (mul_ps (C f !!! k35_lb) (R f !!! k35_2z))
                    (mul_ps (C f !!! k35_hb) (R f !!! k35_hz)) in
  let u_clean := mul_ps (C f !!! k35_alpha) (add_ps y1 s35) in
  let u_driven := fasttanhSSEclamped (mul_ps u_clean (C f !!! k35_saturation)) in
  let u := add_ps (mul_ps u_clean (C f !!! k35_saturation_blend_inv))
                  (mul_ps u_driven (C f !!! k35_saturation_blend)) in
  let '(l2, z) := doLpf (C f !!! k35_G) u (R f !!! k35_2z) in
  let f := set_R k35_2z z f in
  let y := mul_ps (C f !!! k35_k) l2 in
  let '(_, z) := doHpf (C f !!! k35_G) y (R f !!! k35_hz) in
  let f := set_R k35_hz z f in
  let result := div_ps y (C f !!! k35_k) in
  (result, f).

Definition process_lp (f : QuadFilterUnitState) (input : m128)
    : m128 * QuadFilterUnitState :=
  let f := processCoeffs f in
  lp_recurrence f input.

(** The body of [process_hp] after its call of [processCoeffs]. *)
Definition hp_recurrence (f : QuadFilterUnitState) (input : m128)
    : m128 * QuadFilterUnitState :=
  let '(y1, z) := doHpf (C f !!! k35_G) input (R f !!! k35_hz) in
  let f := set_R k35_hz z f in
  let s35 := add_ps (mul_ps (C f !!! k35_hb) (R f !!! k35_2z))
                    (mul_ps (C f !!! k35_lb) (R f !!! k35_lz)) in
  let u := mul_ps (C f !!! k35_alpha) (add_ps y1 s35) in
  let y_clean := mul_ps (C f !!! k35_k) u in
  let y_driven := fasttanhSSEclamped (mul_ps y_clean (C f !!! k35_saturation)) in
  let y := add_ps (mul_ps y_clean (C f !!! k35_saturation_blend_inv))
                  (mul_ps y_driven (C f !!! k35_saturation_blend)) in
  let '(h2, z) := doHpf (C f !!! k35_G) y (R f !!! k35_2z) in
  let f := set_R k35_2z z f in
  let '(_, z) := doLpf (C f !!! k35_G) h2 (R f !!! k35_lz) in
  let f := set_R k35_lz z f in
  let result := div_ps y (C f !!! k35_k) in
  (result, f).

Definition process_hp (f : QuadFilterUnitState) (input : m128)
    : m128 * QuadFilterUnitState :=
  let f := processCoeffs f in
  hp_recurrence f input.

End K35.

End K35Filter.

(** ** ResonanceWarp.h *)

Module ResonanceWarp.

Section RW.
Context {tuning : TuningProvider} {fm : FastMath} {ft : FilterTypes}.

Definition clampedFrequency (pitch sampleRate : f32) : f32 :=
  let freq := mul (note_to_pitch_ignoring_tuning (add pitch c69)) MIDI_0_FREQ in
  let freq := clamp freq c5 (mul sampleRate c0_3) in
  freq.

(** [enum Saturator] *)
Definition SAT_TANH : Z := 0.
Definition SAT_SOFT : Z := 1.

(** [doNLFilter] updates its reference arguments [z1] and [z2]: the new
    values are returned next to [out]. *)
Definition doNLFilter (input a1 a2 b0 b1 b2 : m128) (sat : Z) (z1 z2 : m128)
    : m128 * m128 * m128 :=
  let out := add_ps z1 (mul_ps b0 input) in
  let z1 := add_ps z2 (sub_ps (mul_ps b1 input) (mul_ps a1 out)) in
  let z2 := sub_ps (mul_ps b2 input) (mul_ps a2 out) in
  if sat =? SAT_TANH
  then (out, fasttanhSSEclamped z1, fasttanhSSEclamped z2)
  else (out, softclip_ps z1, softclip_ps z2).

(** [enum nls_coeffs] *)
Definition nls_a1 : nat := 0.
Definition nls_a2 : nat := 1.
Definition nls_b0 : nat := 2.
Definition nls_b1 : nat := 3.
Definition nls_b2 : nat := 4.
Definition n_nls_coeff : nat := 5.

(** [enum dlf_state] *)
Definition nls_z1 : nat := 0.
Definition nls_z2 : nat := 1.
Definition nls_z3 : nat := 2.
Definition nls_z4 : nat := 3.
Definition nls_z5 : nat := 4.
Definition nls_z6 : nat := 5.
Definition nls_z7 : nat := 6.
Definition nls_z8 : nat := 7.

(** The resonance term of [makeCoefficients]:
    [reso = std::clamp(reso, 0.f, 1.f); q = reso * reso * reso * 18.0f + 0.1f]. *)
Definition resonance_q (reso : f32) : f32 :=
  let reso := clamp reso c0 c1 in
  add (mul (mul (mul reso reso) reso) c18) c0_1.

(** [makeCoefficients]; the result is the array [C] it hands to
    [cm->FromDirect]. *)
Definition makeCoefficients (freq reso : f32) (type : Z) (sampleRate : f32)
    : list f32 :=
  let C := replicate n_cm_coeffs c0 in
  let q := resonance_q reso in
  let wc := div (mul (mul c2 cPI) (clampedFrequency freq sampleRate)) sampleRate in
  let wsin := fastsin wc in
  let wcos := fastcos wc in
  let alpha := div wsin (mul c2 q) in
  let a0r := div c1 (add c1 alpha) in
  let C := <[nls_a1 := mul (mul cm2 wcos) a0r]> C in
  let C := <[nls_a2 := mul (sub c1 alpha) a0r]> C in
  if type =? fut_resonancewarp_lp then
    let C := <[nls_b1 := mul (sub c1 wcos) a0r]> C in
    let C := <[nls_b0 := mul (C !!! nls_b1) c0_5]> C in
    let C := <[nls_b2 := C !!! nls_b0]> C in
    C
  else if type =? fut_resonancewarp_hp then
    let C := <[nls_b1 := mul (neg (add c1 wcos)) a0r]> C in
    let C := <[nls_b0 := mul (C !!! nls_b1) cm0_5]> C in
    let C := <[nls_b2 := C !!! nls_b0]> C in
    C
  else if type =? fut_resonancewarp_n then
    let C := <[nls_b0 := a0r]> C in
    let C := <[nls_b1 := mul (mul cm2 wcos) a0r]> C in
    let C := <[nls_b2 := C !!! nls_b0]> C in
    C
  else if type =? fut_resonancewarp_bp then
    let C := <[nls_b0 := mul (mul wsin c0_5) a0r]> C in
    let C := <[nls_b1 := c0]> C in
    let C := <[nls_b2 := neg (C !!! nls_b0)]> C in
    C
  else
    let C := <[nls_b0 := C !!! nls_a2]> C in
    let C := <[nls_b1 := C !!! nls_a1]> C in
    let C := <[nls_b2 := c1]> C in
    C.

(** One turn of the stage loop: the running [input] and the state. *)
Definition stage_step (sat : Z) (acc : m128 * QuadFilterUnitState) (stage : nat)
    : m128 * QuadFilterUnitState :=
  let '(input, f) := acc in
  let '(out, z1, z2) :=
    doNLFilter input (C f !!! nls_a1) (C f !!! nls_a2) (C f !!! nls_b0)
               (C f !!! nls_b1) (C f !!! nls_b2) sat
               (R f !!! (nls_z1 + stage * 2)%nat) (R f !!! (nls_z2 + stage * 2)%nat) in
  (out, set_R (nls_z2 + stage * 2) z2 (set_R (nls_z1 + stage * 2) z1 f)).

(** The first loop of [process<subtype>]: [stage = 0 .. stages]
    inclusive. *)
Definition run_stages (subtype : Z) (f : QuadFilterUnitState) (input : m128)
    : m128 * QuadFilterUnitState :=
  let stages := Z.land subtype 3 in
  let sat := Z.land (Z.shiftr subtype 2) 3 in
  foldl (stage_step sat) (input, f) (seq 0 (Z.to_nat stages + 1)).

(** [process<subtype>]: the stage loop, then the coefficient loop over
    the first [n_nls_coeff] slots. *)
Definition process (subtype : Z) (f : QuadFilterUnitState) (input : m128)
    : m128 * QuadFilterUnitState :=
  let '(input, f) := run_stages subtype f input in
  let f := advance_loop n_nls_coeff f in
  (input, f).

End RW.

End ResonanceWarp.

(** ** Sample collaborators, used to run the filters on concrete inputs *)

Module Samples.

(** A provider that maps every note to 60 Hz. *)
Definition tuning_60Hz : TuningProvider :=
  {| note_to_pitch_ignoring_tuning := fun _ => of_Z 60; MIDI_0_FREQ := c1 |}.

Definition c27 : f32 := Eval vm_compute in of_Z 27.
Definition c9 : f32 := Eval vm_compute in of_Z 9.
Definition c15 : f32 := Eval vm_compute in of_Z 15.
Definition c6 : f32 := Eval vm_compute in of_Z 6.
Definition c24 : f32 := Eval vm_compute in of_Z 24.
Definition c1_5 : f32 := Eval vm_compute in of_ratio 3 2.
Definition c4_27 : f32 := Eval vm_compute in of_ratio 4 27.

(** Rational approximations in binary32, standing in for [FastMath.h]:
    tan x ~ x (15 - x^2) / (15 - 6 x^2), sin x ~ x - x^3/6,
    cos x ~ 1 - x^2/2 + x^4/24, tanh x ~ x (27 + x^2) / (27 + 9 x^2) on
    [x] clamped to [-5, 5], and the cubic soft clipper x - 4/27 x^3 on
    [x] clamped to [-1.5, 1.5]. *)
Definition tan_approx (x : f32) : f32 :=
  let x2 := mul x x in
  div (mul x (sub c15 x2)) (sub c15 (mul c6 x2)).

Definition sin_approx (x : f32) : f32 :=
  sub x (div (mul (mul x x) x) c6).

Definition cos_approx (x : f32) : f32 :=
  let x2 := mul x x in
  add (sub c1 (mul x2 c0_5)) (div (mul x2 x2) c24).

Definition tanh_approx (x : f32) : f32 :=
  let x := clamp x (neg c5) c5 in
  let x2 := mul x x in
  div (mul x (add c27 x2)) (add c27 (mul c9 x2)).

Definition softclip_approx (x : f32) : f32 :=
  let x := clamp x (neg c1_5) c1_5 in
  sub x (mul c4_27 (mul (mul x x) x)).

Definition fastmath_approx : FastMath :=
  {| fasttan := tan_approx; fastsin := sin_approx; fastcos := cos_approx;
     fasttanh_lane := tanh_approx; softclip_lane := softclip_approx |}.

Definition filter_types : FilterTypes :=
  {| fut_resonancewarp_lp := 0; fut_resonancewarp_hp := 1;
     fut_resonancewarp_n := 2; fut_resonancewarp_bp := 3 |}.

End Samples.

(** ** The cascade as the specification words it (section 4.4) *)

Module CascadeSpec.

Section Spec.
Context {fm : FastMath}.

(** ``stage count is encoded by a 2-bit field (value 0-3 => 1-4 stages)'':
    the two low bits of the subtype. *)
Definition stage_count (subtype : Z) : nat := Z.to_nat (subtype mod 4) + 1.

(** ``a saturator, tanh-like or soft-clip, selected by a 2-bit field'':
    bits 2 and 3 of the subtype, tanh-like when the field is 0. *)
Definition saturator (subtype : Z) : m128 -> m128 :=
  if (subtype / 4) mod 4 =? 0 then fasttanhSSEclamped else softclip_ps.

(** ``out = z1 + b0 input; z1' = z2 + b1 input - a1 out;
    z2' = b2 input - a2 out; both new register values are then pushed
    through a saturator''.  The sum for [z1'] is grouped as the code
    groups it. *)
Definition stage (a1 a2 b0 b1 b2 : m128) (sat : m128 -> m128) (input z1 z2 : m128)
    : m128 * m128 * m128 :=
  let out := add_ps z1 (mul_ps b0 input) in
  let z1' := add_ps z2 (sub_ps (mul_ps b1 input) (mul_ps a1 out)) in
  let z2' := sub_ps (mul_ps b2 input) (mul_ps a2 out) in
  (out, sat z1', sat z2').

(** ``Output of stage i feeds stage i+1'', two registers per stage, one
    coefficient set for all stages: [n] stages from stage [i] on. *)
Fixpoint cascade (a1 a2 b0 b1 b2 : m128) (sat : m128 -> m128) (n i : nat)
    (input : m128) (regs : list m128) : m128 * list m128 :=
  match n with
  | O => (input, regs)
  | S n =>
      let '(out, z1, z2) :=
        stage a1 a2 b0 b1 b2 sat input (regs !!! (2 * i)%nat) (regs !!! (2 * i + 1)%nat) in
      cascade a1 a2 b0 b1 b2 sat n (S i) out
              (<[(2 * i + 1)%nat := z2]> (<[(2 * i)%nat := z1]> regs))
  end.

End Spec.

End CascadeSpec.

(** ** Predicates of the statements *)

(** [proc] advances the first [n] coefficient slots once and keeps the
    state well formed. *)
Definition advances (n : nat)
    (proc : QuadFilterUnitState -> m128 -> m128 * QuadFilterUnitState) : Prop :=
  forall f x, wf_state f ->
    wf_state (proc f x).2 /\ dC (proc f x).2 = dC f /\
    forall i, C (proc f x).2 !!! i =
              if (i <? n)%nat then add_ps (C f !!! i) (dC f !!! i) else C f !!! i.

(** Two lane groups, two states, that agree in lane [i]. *)
Definition lane_eq (i : lane) (a b : m128) : Prop := get_lane i a = get_lane i b.

Definition state_lane_eq (i : lane) (f g : QuadFilterUnitState) : Prop :=
  Forall2 (lane_eq i) (C f) (C g) /\
  Forall2 (lane_eq i) (dC f) (dC g) /\
  Forall2 (lane_eq i) (R f) (R g).

(** A property of all four lanes. *)
Definition all_lanes (p : f32 -> bool) (v : m128) : Prop :=
  p (lane0 v) = true /\ p (lane1 v) = true /\ p (lane2 v) = true /\ p (lane3 v) = true.

Definition zero_ps : m128 -> Prop := all_lanes is_zero.
Definition finite_ps : m128 -> Prop := all_lanes is_finite.
Definition nonzero_ps : m128 -> Prop := all_lanes (fun x => negb (is_zero x)).

(** The saturators map zero to zero. *)
Definition zero_at_zero (fm : FastMath) : Prop :=
  (forall x, is_zero x = true -> is_zero (fasttanh_lane x) = true) /\
  (forall x, is_zero x = true -> is_zero (softclip_lane x) = true).

(** What a silent unit keeps from call to call: finite coefficients, no
    ramp, zero registers; for K35 also a [k] that is not zero. *)
Definition silent (f : QuadFilterUnitState) : Prop :=
  wf_state f /\ Forall finite_ps (C f) /\ Forall zero_ps (dC f) /\ Forall zero_ps (R f).

Definition silent_k35 (f : QuadFilterUnitState) : Prop :=
  silent f /\ nonzero_ps (C f !!! K35Filter.k35_k).

(** ** Concrete units and inputs *)

(** A unit whose coefficients are all zero and whose deltas are all [d]. *)
Definition ramp_unit (d : f32) : QuadFilterUnitState :=
  QFU (replicate 8 setzero_ps) (replicate 8 (set_ps1 d)) (replicate 8 setzero_ps).

(** The scenario of the specification: 48 kHz, a pitch that maps to 60 Hz,
    resonance 0.5, saturation 0, lowpass, a freshly reset unit. *)
Definition scenario_coeffs : list f32 :=
  K35Filter.makeCoefficients (tuning := Samples.tuning_60Hz) (fm := Samples.fastmath_approx)
    c0 c0_5 true c0 (of_Z 48000) (of_ratio 1 48000).

Definition scenario_unit : QuadFilterUnitState := fresh_unit scenario_coeffs 8.

(** The ResonanceWarp maker on the same inputs, lowpass. *)
Definition scenario_coeffs_rw : list f32 :=
  ResonanceWarp.makeCoefficients (tuning := Samples.tuning_60Hz)
    (fm := Samples.fastmath_approx) (ft := Samples.filter_types)
    c0 c0_5 0 (of_Z 48000).

(** ** Further predicates and stand-ins *)

(** Lane [i] of one lane group, or state, holds what lane [j] of another holds. *)
Definition lane_rel (i j : lane) (a b : m128) : Prop := get_lane i a = get_lane j b.

Definition state_lane_rel (i j : lane) (f g : QuadFilterUnitState) : Prop :=
  Forall2 (lane_rel i j) (C f) (C g) /\
  Forall2 (lane_rel i j) (dC f) (dC g) /\
  Forall2 (lane_rel i j) (R f) (R g).

(** A lane that is not the negative zero. *)
Definition not_neg_zero (x : f32) : bool :=
  match x with S754_zero true => false | _ => true end.

(** Lane [l] of a lane group is a NaN. *)
Definition nan_at (l : lane) (v : m128) : Prop := is_nan (get_lane l v) = true.

(** A K35 unit with a NaN in lane [l] of one of its three registers. *)
Definition poisoned (l : lane) (f : QuadFilterUnitState) : Prop :=
  nan_at l (R f !!! K35Filter.k35_lz) \/
  nan_at l (R f !!! K35Filter.k35_hz) \/
  nan_at l (R f !!! K35Filter.k35_2z).

(** A hard clipper to [-1, 1] (a NaN gives 0), and the stand-ins with it in
    the place of both saturators. *)
Definition hard_clip (x : f32) : f32 :=
  if is_nan x then pzero else clamp x (neg c1) c1.

Definition fastmath_clipped : FastMath :=
  {| fasttan := Samples.tan_approx; fastsin := Samples.sin_approx;
     fastcos := Samples.cos_approx;
     fasttanh_lane := hard_clip; softclip_lane := hard_clip |}.

Definition within_one (x : f32) : Prop := le (neg c1) x = true /\ le x c1 = true.

(** ** juce_LadderFilter.cpp, at [SampleType = float] *)

Module LadderFilter.

(** [SampleType (x)] for a literal [x = n / d] of type [double]: the literal
    is read as a binary64 number, which the cast rounds to binary32. *)
Definition of_double (n d : Z) : f32 :=
  match SFdiv 53 1024 (binary_normalize 53 1024 n 0 false)
                      (binary_normalize 53 1024 d 0 false) with
  | S754_finite s m e => binary_normalize prec emax (if s then Z.neg m else Z.pos m) e s
  | x => x
  end.

Definition k0_5 : f32 := Eval vm_compute in of_double 1 2.          (* 0.5 *)
Definition k1_2 : f32 := Eval vm_compute in of_double 12 10.        (* 1.2 *)
Definition km1 : f32 := Eval vm_compute in of_Z (-1).               (* -1 *)
Definition km4 : f32 := Eval vm_compute in of_Z (-4).               (* -4 *)
Definition k6 : f32 := Eval vm_compute in of_Z 6.                   (* 6 *)
Definition k0_769 : f32 := Eval vm_compute in of_double 76923076923 100000000000.
Definition k0_230 : f32 := Eval vm_compute in of_double 23076923076 100000000000.

(** [enum class Mode], as the cases of [setMode] name it (its [default:]
    case, a [jassertfalse], has no mode left to take it). *)
Inductive Mode : Type := LPF12 | HPF12 | BPF12 | LPF24 | HPF24 | BPF24.

Definition Mode_eqb (a b : Mode) : bool :=
  match a, b with
  | LPF12, LPF12 | HPF12, HPF12 | BPF12, BPF12
  | LPF24, LPF24 | HPF24, HPF24 | BPF24, BPF24 => true
  | _, _ => false
  end.

(** [std::array<SampleType, 5>]: the five stage values of a channel, and the
    five output weights [A]. *)
Record array5 : Type := A5 { e0 : f32; e1 : f32; e2 : f32; e3 : f32; e4 : f32 }.

Definition fill (v : f32) : array5 := A5 v v v v v.

Definition map5 (g : f32 -> f32) (a : array5) : array5 :=
  A5 (g (e0 a)) (g (e1 a)) (g (e2 a)) (g (e3 a)) (g (e4 a)).

#[global] Instance array5_inhabited : Inhabited array5 := populate (fill c0).

Section Ladder.
(** The two [SmoothedValue] members and what [reset] does to each,
    [setCurrentAndTargetValue (getTargetValue())]; the saturation look-up
    table.  Their code is JUCE's, outside this file. *)
Context {Smoother : Type}.
Variable snap_to_target : Smoother -> Smoother.
Variable saturationLUT : f32 -> f32.

(** The members the functions below read and write. *)
Record t : Type := Build {
  state : list array5;
  A : array5;
  comp : f32;
  mode : Mode;
  drive : f32;
  drive2 : f32;
  gain : f32;
  gain2 : f32;
  cutoffTransformValue : f32;
  scaledResonanceValue : f32;
  cutoffTransformSmoother : Smoother;
  scaledResonanceSmoother : Smoother
}.

Definition reset (f : t) : t :=
  Build ((fun _ => fill c0) <$> state f) (A f) (comp f) (mode f)
        (drive f) (drive2 f) (gain f) (gain2 f)
        (cutoffTransformValue f) (scaledResonanceValue f)
        (snap_to_target (cutoffTransformSmoother f))
        (snap_to_target (scaledResonanceSmoother f)).

(** The [switch] of [setMode]: the weights and [comp] of each mode. *)
Definition mode_weights (m : Mode) : array5 * f32 :=
  match m with
  | LPF12 => (A5 c0 c0 c1 c0 c0, k0_5)
  | HPF12 => (A5 c1 cm2 c1 c0 c0, c0)
  | BPF12 => (A5 c0 c1 km1 c0 c0, k0_5)
  | LPF24 => (A5 c0 c0 c0 c0 c1, k0_5)
  | HPF24 => (A5 c1 km4 k6 km4 c1, c0)
  | BPF24 => (A5 c0 c0 c1 cm2 c1, k0_5)
  end.

Definition outputGain : f32 := k1_2.

Definition setMode (newMode : Mode) (f : t) : t :=
  if Mode_eqb newMode (mode f) then f
  else
    let '(A, comp) := mode_weights newMode in
    let A := map5 (fun a => mul a outputGain) A in
    reset (Build (state f) A comp newMode
                 (drive f) (drive2 f) (gain f) (gain2 f)
                 (cutoffTransformValue f) (scaledResonanceValue f)
                 (cutoffTransformSmoother f) (scaledResonanceSmoother f)).

(** [processSample]: the output and the filter it leaves.  The channel is
    [state[channelToUse]]; the code does not check the index (here a read
    past the end gives zeros and a write past the end is dropped). *)
Definition processSample (inputValue : f32) (channelToUse : nat) (f : t) : f32 * t :=
  let s := state f !!! channelToUse in
  let a1 := cutoffTransformValue f in
  let g := add (mul a1 km1) c1 in
  let b0 := mul g k0_769 in
  let b1 := mul g k0_230 in
  let dx := mul (gain f) (saturationLUT (mul (drive f) inputValue)) in
  let a := add dx (mul (mul (scaledResonanceValue f) km4)
                       (sub (mul (gain2 f) (saturationLUT (mul (drive2 f) (e4 s))))
                            (mul dx (comp f)))) in
  let b := add (add (mul b1 (e0 s)) (mul a1 (e1 s))) (mul b0 a) in
  let c := add (add (mul b1 (e1 s)) (mul a1 (e2 s))) (mul b0 b) in
  let d := add (add (mul b1 (e2 s)) (mul a1 (e3 s))) (mul b0 c) in
  let e := add (add (mul b1 (e3 s)) (mul a1 (e4 s))) (mul b0 d) in
  let f' := Build (<[channelToUse := A5 a b c d e]> (state f)) (A f) (comp f) (mode f)
                  (drive f) (drive2 f) (gain f) (gain2 f)
                  (cutoffTransformValue f) (scaledResonanceValue f)
                  (cutoffTransformSmoother f) (scaledResonanceSmoother f) in
  (add (add (add (add (mul a (e0 (A f))) (mul b (e1 (A f)))) (mul c (e2 (A f))))
            (mul d (e3 (A f))))
       (mul e (e4 (A f))),
   f').

End Ladder.

End LadderFilter.

(** ** Predicates on a ladder filter *)

Module LadderProps.
Import LadderFilter.

Section Props.
Context {Smoother : Type}.

Definition all5 (p : f32 -> bool) (a : array5) : Prop :=
  p (e0 a) = true /\ p (e1 a) = true /\ p (e2 a) = true /\ p (e3 a) = true /\ p (e4 a) = true.

Definition any_nan5 (a : array5) : Prop :=
  is_nan (e0 a) = true \/ is_nan (e1 a) = true \/ is_nan (e2 a) = true \/
  is_nan (e3 a) = true \/ is_nan (e4 a) = true.

(** The parameters of a call are finite numbers: the members [processSample]
    reads, the pole weights [b0] and [b1] it derives from the cutoff value,
    and the resonance scaled by [-4]. *)
Definition finite_params (f : t (Smoother := Smoother)) : Prop :=
  let a1 := cutoffTransformValue f in
  let g := add (mul a1 km1) c1 in
  is_finite a1 = true /\ is_finite (mul g k0_769) = true /\ is_finite (mul g k0_230) = true /\
  is_finite (mul (scaledResonanceValue f) km4) = true /\
  is_finite (drive f) = true /\ is_finite (drive2 f) = true /\
  is_finite (gain f) = true /\ is_finite (gain2 f) = true /\
  is_finite (comp f) = true /\ all5 is_finite (A f).

(** Channel [ch] exists and is silent: its five stage values are zeros. *)
Definition quiet (ch : nat) (f : t (Smoother := Smoother)) : Prop :=
  (ch < length (state f))%nat /\ all5 is_zero (state f !!! ch) /\ finite_params f.

End Props.

End LadderProps.

(** A two-channel ladder filter in the 12 dB lowpass mode. *)
Definition ladder_sample : LadderFilter.t (Smoother := unit) :=
  LadderFilter.Build [LadderFilter.fill c0; LadderFilter.fill c0]
    (LadderFilter.map5 (fun a => mul a LadderFilter.k1_2)
       (LadderFilter.mode_weights LadderFilter.LPF12).1)
    LadderFilter.k0_5 LadderFilter.LPF12
    LadderFilter.k1_2 c1 c1 c1 c0_5 c0_1 tt tt.

(** * Properties *)

(** ** Binary32 facts *)

Lemma sub_pzero (x : f32) : sub x pzero = x.
Proof. destruct x as [[]|[]| |[] m e]; reflexivity. Qed.

Lemma mul_zero_l (a b : f32) : is_zero a = true -> is_finite b = true -> is_zero (mul a b) = true.
Proof. destruct a, b; simpl; try discriminate; reflexivity. Qed.

Lemma mul_zero_r (a b : f32) : is_finite a = true -> is_zero b = true -> is_zero (mul a b) = true.
Proof. destruct a, b; simpl; try discriminate; reflexivity. Qed.

Lemma add_zero_zero (a b : f32) : is_zero a = true -> is_zero b = true -> is_zero (add a b) = true.
Proof. destruct a as [[]| | |], b as [[]| | |]; simpl; try discriminate; reflexivity. Qed.

Lemma sub_zero_zero (a b : f32) : is_zero a = true -> is_zero b = true -> is_zero (sub a b) = true.
Proof. destruct a as [[]| | |], b as [[]| | |]; simpl; try discriminate; reflexivity. Qed.

Lemma div_zero_l (a b : f32) :
  is_zero a = true -> is_finite b = true -> is_zero b = false -> is_zero (div a b) = true.
Proof. destruct a, b; simpl; try discriminate; reflexivity. Qed.

Lemma add_zero_r (x d : f32) : is_zero d = true -> is_zero x = false -> add x d = x.
Proof. destruct x as [|[]| |], d as [[]| | |]; simpl; try discriminate; reflexivity. Qed.

Lemma add_zero_r_finite (x d : f32) :
  is_zero d = true -> is_finite x = true -> is_finite (add x d) = true.
Proof. destruct x as [[]| | |], d as [[]| | |]; simpl; try discriminate; reflexivity. Qed.

Lemma add_zero_r_is_zero (x d : f32) :
  is_zero d = true -> is_zero (add x d) = is_zero x.
Proof. destruct x as [[]|[]| |], d as [[]| | |]; simpl; try discriminate; reflexivity. Qed.

Lemma SFcompare_antisym (x y : f32) :
  SFcompare y x = option_map CompOpp (SFcompare x y).
Proof.
  destruct x as [sx|sx| |sx mx ex], y as [sy|sy| |sy my ey]; simpl;
    try reflexivity; try (destruct sx; reflexivity); try (destruct sy; reflexivity);
    try (destruct sx, sy; reflexivity).
  f_equal. rewrite (Z.compare_antisym ex ey).
  destruct sx, sy; simpl; try reflexivity;
    destruct (ex ?= ey); simpl; try reflexivity.
  all: pose proof (Pos.compare_cont_antisym mx my Eq) as Ha; simpl in Ha;
    rewrite <- Ha; now rewrite ?CompOpp_involutive.
Qed.

Lemma SFcompare_refl (x : f32) : is_nan x = false -> SFcompare x x = Some Eq.
Proof.
  destruct x as [s|s| |s m e]; simpl; try discriminate; intros _;
    try (destruct s; reflexivity).
  rewrite Z.compare_refl, Pos.compare_cont_refl. now destruct s.
Qed.

Lemma SFcompare_total (x y : f32) :
  is_nan x = false -> is_nan y = false -> exists c, SFcompare x y = Some c.
Proof.
  destruct x, y; simpl; try discriminate; intros _ _; eauto.
Qed.

Lemma le_refl (x : f32) : is_nan x = false -> le x x = true.
Proof. intros Hx. unfold le, SFleb. now rewrite SFcompare_refl. Qed.

Lemma lt_le (x y : f32) : lt x y = true -> le x y = true.
Proof. unfold lt, le, SFltb, SFleb. destruct (SFcompare x y) as [[]|]; congruence. Qed.

Lemma not_lt_le (x y : f32) :
  is_nan x = false -> is_nan y = false -> lt x y = false -> le y x = true.
Proof.
  intros Hx Hy. unfold lt, le, SFltb, SFleb. rewrite (SFcompare_antisym x y).
  destruct (SFcompare_total x y Hx Hy) as [c ->]. destruct c; simpl; congruence.
Qed.

Lemma le_not_nan (x y : f32) : le x y = true -> is_nan x = false /\ is_nan y = false.
Proof. destruct x, y; simpl; try discriminate; auto. Qed.

Lemma lt_not_nan (x y : f32) : lt x y = true -> is_nan x = false /\ is_nan y = false.
Proof. destruct x, y; simpl; try discriminate; auto. Qed.

(** Rounding a non-negative mantissa never produces a NaN. *)
Lemma shr_1_nonneg (mrs : shr_record) : 0 <= shr_m mrs -> 0 <= shr_m (shr_1 mrs).
Proof.
  destruct mrs as [m r s]; simpl. destruct m as [|[p|p|]|p]; simpl; lia.
Qed.

Lemma iter_pos_shr_1_nonneg (p : positive) (mrs : shr_record) :
  0 <= shr_m mrs -> 0 <= shr_m (SpecFloat.iter_pos shr_1 p mrs).
Proof.
  revert mrs. induction p as [p IH|p IH|]; intros mrs Hm; simpl.
  - apply IH, IH, shr_1_nonneg, Hm.
  - apply IH, IH, Hm.
  - apply shr_1_nonneg, Hm.
Qed.

Lemma shr_fexp_nonneg (m e : Z) (l : location) :
  0 <= m -> 0 <= shr_m (fst (shr_fexp prec emax m e l)).
Proof.
  intros Hm. unfold shr_fexp, shr.
  assert (H0 : 0 <= shr_m (shr_record_of_loc m l)) by (destruct l as [|[]]; exact Hm).
  destruct (fexp prec emax (Zdigits2 m + e) - e); simpl; auto.
  now apply iter_pos_shr_1_nonneg.
Qed.

Lemma round_nearest_even_nonneg (m : Z) (l : location) :
  0 <= m -> 0 <= round_nearest_even m l.
Proof.
  intros Hm. destruct l as [|[]]; simpl; try lia. destruct (Z.even m); lia.
Qed.

Lemma binary_round_aux_not_nan (s : bool) (m e : Z) (l : location) :
  0 <= m -> is_nan (binary_round_aux prec emax s m e l) = false.
Proof.
  intros Hm. unfold binary_round_aux.
  pose proof (shr_fexp_nonneg m e l Hm) as H1.
  destruct (shr_fexp prec emax m e l) as [mrs' e']. simpl in H1.
  pose proof (shr_fexp_nonneg _ e' loc_Exact
                (round_nearest_even_nonneg _ (loc_of_shr_record mrs') H1)) as H2.
  destruct (shr_fexp prec emax _ e' loc_Exact) as [mrs'' e'']. simpl in H2.
  destruct (shr_m mrs'') as [|p|p]; try reflexivity; try lia.
  now destruct (e'' <=? emax - prec).
Qed.

Lemma mul_finite_not_nan (x y : f32) :
  is_nan x = false -> is_finite y = true -> is_zero y = false -> is_nan (mul x y) = false.
Proof.
  destruct x as [sx|sx| |sx mx ex], y as [sy|sy| |sy my ey]; simpl;
    try discriminate; try reflexivity.
  intros _ _ _. apply binary_round_aux_not_nan. lia.
Qed.

(** ** The coefficient loop *)

Lemma advance_loop_S (n : nat) (f : QuadFilterUnitState) :
  advance_loop (S n) f =
  set_C n (add_ps (C (advance_loop n f) !!! n) (dC (advance_loop n f) !!! n))
        (advance_loop n f).
Proof. unfold advance_loop. now rewrite seq_S, foldl_app. Qed.

Lemma advance_loop_dC (n : nat) (f : QuadFilterUnitState) : dC (advance_loop n f) = dC f.
Proof. induction n as [|n IH]; [reflexivity|]. now rewrite advance_loop_S. Qed.

Lemma advance_loop_R (n : nat) (f : QuadFilterUnitState) : R (advance_loop n f) = R f.
Proof. induction n as [|n IH]; [reflexivity|]. now rewrite advance_loop_S. Qed.

Lemma advance_loop_length (n : nat) (f : QuadFilterUnitState) :
  length (C (advance_loop n f)) = length (C f).
Proof.
  induction n as [|n IH]; [reflexivity|].
  rewrite advance_loop_S. simpl. now rewrite length_insert.
Qed.

(** Slot [i] after the loop: advanced once when [i < n], untouched
    otherwise. *)
Lemma advance_loop_lookup (n i : nat) (f : QuadFilterUnitState) :
  C (advance_loop n f) !! i =
  if (i <? n)%nat then (fun c => add_ps c (dC f !!! i)) <$> (C f !! i) else C f !! i.
Proof.
  induction n as [|n IH]; [reflexivity|].
  rewrite advance_loop_S. simpl. rewrite advance_loop_dC.
  destruct (decide (i = n)) as [->|Hne].
  - assert (Hn : (n <? S n)%nat = true) by (apply Nat.ltb_lt; lia). rewrite Hn.
    assert (Hn' : (n <? n)%nat = false) by (apply Nat.ltb_ge; lia).
    rewrite Hn' in IH.
    destruct (C f !! n) as [c|] eqn:Hc.
    + rewrite list_lookup_insert_eq.
      * simpl. now rewrite (list_lookup_total_correct _ _ _ IH).
      * rewrite advance_loop_length. now apply lookup_lt_Some in Hc.
    + simpl. rewrite list_insert_ge; [exact IH|].
      rewrite advance_loop_length. now apply lookup_ge_None in Hc.
  - rewrite list_lookup_insert_ne by congruence. rewrite IH.
    destruct (i <? n)%nat eqn:E1, (i <? S n)%nat eqn:E2; try reflexivity;
      apply Nat.ltb_lt in E1 || apply Nat.ltb_ge in E1;
      apply Nat.ltb_lt in E2 || apply Nat.ltb_ge in E2; lia.
Qed.

Lemma advance_loop_all (f : QuadFilterUnitState) :
  length (dC f) = length (C f) ->
  C (advance_loop (length (C f)) f) = zip_with add_ps (C f) (dC f).
Proof.
  intros Hlen. apply list_eq. intros i.
  rewrite advance_loop_lookup, lookup_zip_with.
  destruct (C f !! i) as [c|] eqn:Hc; simpl.
  - pose proof (lookup_lt_Some _ _ _ Hc) as Hi.
    assert (Hn : (i <? length (C f))%nat = true) by (now apply Nat.ltb_lt). rewrite Hn.
    destruct (lookup_lt_is_Some_2 (dC f) i) as [d Hd]; [lia|].
    rewrite Hd. simpl. now rewrite (list_lookup_total_correct _ _ _ Hd).
  - now destruct (i <? length (C f))%nat.
Qed.

Lemma advance_loop_prefix (n : nat) (f : QuadFilterUnitState) :
  (n <= length (C f))%nat -> (n <= length (dC f))%nat ->
  C (advance_loop n f) = zip_with add_ps (take n (C f)) (take n (dC f)) ++ drop n (C f).
Proof.
  intros Hc Hd. apply list_eq. intros i. rewrite advance_loop_lookup.
  assert (Hlen : length (zip_with add_ps (take n (C f)) (take n (dC f))) = n).
  { rewrite length_zip_with, !length_take. lia. }
  destruct (i <? n)%nat eqn:E.
  - apply Nat.ltb_lt in E. rewrite lookup_app_l by lia.
    rewrite lookup_zip_with, !lookup_take_lt by lia.
    destruct (lookup_lt_is_Some_2 (C f) i) as [c Hci]; [lia|].
    destruct (lookup_lt_is_Some_2 (dC f) i) as [d Hdi]; [lia|].
    rewrite Hci, Hdi. simpl. now rewrite (list_lookup_total_correct _ _ _ Hdi).
  - apply Nat.ltb_ge in E. rewrite lookup_app_r by lia.
    rewrite lookup_drop, Hlen. f_equal. lia.
Qed.

Section Structure.
Context {fm : FastMath}.

(** The K35 recurrences write registers only. *)
Lemma lp_recurrence_C (f : QuadFilterUnitState) (x : m128) :
  C (K35Filter.lp_recurrence f x).2 = C f /\ dC (K35Filter.lp_recurrence f x).2 = dC f.
Proof. split; reflexivity. Qed.

Lemma hp_recurrence_C (f : QuadFilterUnitState) (x : m128) :
  C (K35Filter.hp_recurrence f x).2 = C f /\ dC (K35Filter.hp_recurrence f x).2 = dC f.
Proof. split; reflexivity. Qed.

Lemma stage_step_C (sat : Z) (acc : m128 * QuadFilterUnitState) (stage : nat) :
  C (ResonanceWarp.stage_step sat acc stage).2 = C acc.2 /\
  dC (ResonanceWarp.stage_step sat acc stage).2 = dC acc.2.
Proof.
  destruct acc as [x f]. unfold ResonanceWarp.stage_step.
  destruct (ResonanceWarp.doNLFilter _ _ _ _ _ _ _ _ _) as [[out z1] z2].
  split; reflexivity.
Qed.

Lemma stages_fold_C (sat : Z) (l : list nat) (acc : m128 * QuadFilterUnitState) :
  C (foldl (ResonanceWarp.stage_step sat) acc l).2 = C acc.2 /\
  dC (foldl (ResonanceWarp.stage_step sat) acc l).2 = dC acc.2.
Proof.
  revert acc. induction l as [|s l IH]; intros acc; [split; reflexivity|].
  simpl. destruct (IH (ResonanceWarp.stage_step sat acc s)) as [-> ->].
  apply stage_step_C.
Qed.

Lemma run_stages_C (subtype : Z) (f : QuadFilterUnitState) (x : m128) :
  C (ResonanceWarp.run_stages subtype f x).2 = C f /\
  dC (ResonanceWarp.run_stages subtype f x).2 = dC f.
Proof. apply (stages_fold_C _ _ (x, f)). Qed.

Lemma processCoeffs_wf (f : QuadFilterUnitState) :
  wf_state f ->
  K35Filter.processCoeffs f = QFU (zip_with add_ps (C f) (dC f)) (dC f) (R f).
Proof.
  intros (Hc & Hd & _). unfold K35Filter.processCoeffs.
  pose proof (advance_loop_all f) as Ha. rewrite Hc in Ha.
  pose proof (advance_loop_dC n_cm_coeffs f) as Hb.
  pose proof (advance_loop_R n_cm_coeffs f) as Hr.
  destruct (advance_loop n_cm_coeffs f) as [c d r]. simpl in *.
  rewrite Ha, Hb, Hr by congruence. reflexivity.
Qed.

Lemma process_wf (subtype : Z) (f : QuadFilterUnitState) (x : m128) :
  wf_state f ->
  ResonanceWarp.process subtype f x =
  ((ResonanceWarp.run_stages subtype f x).1,
   QFU (zip_with add_ps (take 5 (C f)) (take 5 (dC f)) ++ drop 5 (C f)) (dC f)
       (R (ResonanceWarp.run_stages subtype f x).2)).
Proof.
  intros (Hc & Hd & _). unfold ResonanceWarp.process.
  destruct (run_stages_C subtype f x) as [Hc' Hd'].
  destruct (ResonanceWarp.run_stages subtype f x) as [out f']. simpl in *.
  f_equal.
  pose proof (advance_loop_prefix ResonanceWarp.n_nls_coeff f') as Ha.
  pose proof (advance_loop_dC ResonanceWarp.n_nls_coeff f') as Hb.
  pose proof (advance_loop_R ResonanceWarp.n_nls_coeff f') as Hr.
  destruct (advance_loop ResonanceWarp.n_nls_coeff f') as [c d r]. simpl in *.
  rewrite Ha, Hb, Hr, Hc', Hd'; try reflexivity;
    rewrite ?Hc', ?Hd', ?Hc, ?Hd; unfold ResonanceWarp.n_nls_coeff, n_cm_coeffs; lia.
Qed.

End Structure.




Lemma sub_ps_zero (x : m128) : sub_ps x setzero_ps = x.
Proof. destruct x. unfold sub_ps, lift2. simpl. now rewrite !sub_pzero. Qed.

Lemma lookup_total_zip_with_add (c d : list m128) (i : nat) :
  (i < length c)%nat -> (i < length d)%nat ->
  zip_with add_ps c d !!! i = add_ps (c !!! i) (d !!! i).
Proof.
  intros Hc Hd.
  destruct (lookup_lt_is_Some_2 c i Hc) as [x Hx].
  destruct (lookup_lt_is_Some_2 d i Hd) as [y Hy].
  rewrite (list_lookup_total_correct c i x Hx), (list_lookup_total_correct d i y Hy).
  apply list_lookup_total_correct. rewrite lookup_zip_with, Hx, Hy. reflexivity.
Qed.

Section Impulse.
Context {fm : FastMath}.

(** C2 (as amended).  After one [process_lp] call on a zero [lz] register,
    [lz] holds [v + y1], where [v = input * G] ([G] the advanced
    digital-pole slot) and [y1 = v + 0] is the output of the first one-pole
    stage: twice [G * input], not [G * input]. *)
Theorem lp_first_call_lz (f : QuadFilterUnitState) (input : m128) :
  wf_state f ->
  R f !!! K35Filter.k35_lz = setzero_ps ->
  let G := add_ps (C f !!! K35Filter.k35_G) (dC f !!! K35Filter.k35_G) in
  let v := mul_ps input G in
  let y1 := add_ps v setzero_ps in
  (K35Filter.doLpf G input setzero_ps).1 = y1 /\
  R (K35Filter.process_lp f input).2 !!! K35Filter.k35_lz = add_ps v y1.
Proof.
  intros Hwf Hz G v y1.
  split.
  { unfold K35Filter.doLpf. simpl. now rewrite sub_ps_zero. }
  unfold K35Filter.process_lp. rewrite processCoeffs_wf by exact Hwf.
  destruct Hwf as (Hc & Hd & Hr).
  unfold K35Filter.lp_recurrence, K35Filter.doLpf, K35Filter.doHpf,
    K35Filter.k35_lz, K35Filter.k35_hz, K35Filter.k35_2z, K35Filter.k35_G in *. simpl.
  rewrite !list_lookup_total_insert_ne by lia.
  rewrite list_lookup_total_insert_eq by lia.
  rewrite lookup_total_zip_with_add by (rewrite ?Hc, ?Hd; unfold n_cm_coeffs; lia).
  rewrite Hz, sub_ps_zero. reflexivity.
Qed.

End Impulse.


Lemma lp_first_call_lz_witness :
  let f := scenario_unit in
  let x := set_ps1 c1 in
  let v := mul_ps x (add_ps (C f !!! K35Filter.k35_G) (dC f !!! K35Filter.k35_G)) in
  wf_state f /\ R f !!! K35Filter.k35_lz = setzero_ps /\
  R (K35Filter.process_lp (fm := Samples.fastmath_approx) f x).2 !!! K35Filter.k35_lz
    = add_ps v (add_ps v setzero_ps).
Proof.
  assert (Hwf : wf_state scenario_unit) by (repeat split; simpl; lia).
  assert (Hz : R scenario_unit !!! K35Filter.k35_lz = setzero_ps) by reflexivity.
  intros f x v. split; [exact Hwf|]. split; [exact Hz|].
  exact (proj2 (lp_first_call_lz (fm := Samples.fastmath_approx) scenario_unit x Hwf Hz)).
Defined.

(** C2 fails as stated: in the scenario [G * input] is 8400203 * 2^-31
    (about 0.0039) in every lane, and [lz] after the call is 8400203 * 2^-30,
    twice as much. *)
Lemma lz_after_impulse_is_twice_G :
  let f := scenario_unit in
  let x := set_ps1 c1 in
  let G := C f !!! K35Filter.k35_G in
  let lz := R (K35Filter.process_lp (fm := Samples.fastmath_approx) f x).2
              !!! K35Filter.k35_lz in
  mul_ps G x = set_ps1 (S754_finite false 8400203 (-31)) /\
  lz = set_ps1 (S754_finite false 8400203 (-30)) /\
  lz = mul_ps (set_ps1 c2) (mul_ps G x) /\
  lz <> mul_ps G x.
Proof. vm_compute. repeat split; discriminate. Qed.


Lemma land_3_mod (s : Z) : Z.land s 3 = s mod 4.
Proof. change 3 with (Z.ones 2). now rewrite Z.land_ones by lia. Qed.

Lemma sat_field_div (s : Z) : Z.land (Z.shiftr s 2) 3 = (s / 4) mod 4.
Proof. rewrite land_3_mod, Z.shiftr_div_pow2 by lia. reflexivity. Qed.

Section Cascade.
Context {fm : FastMath}.

Lemma doNLFilter_stage (input a1 a2 b0 b1 b2 : m128) (subtype : Z) (z1 z2 : m128) :
  ResonanceWarp.doNLFilter input a1 a2 b0 b1 b2 (Z.land (Z.shiftr subtype 2) 3) z1 z2 =
  CascadeSpec.stage a1 a2 b0 b1 b2 (CascadeSpec.saturator subtype) input z1 z2.
Proof.
  unfold ResonanceWarp.doNLFilter, CascadeSpec.stage, CascadeSpec.saturator,
    ResonanceWarp.SAT_TANH.
  rewrite sat_field_div. now destruct ((subtype / 4) mod 4 =? 0).
Qed.

Lemma stages_fold_cascade (subtype : Z) (n i : nat) (input : m128)
    (f : QuadFilterUnitState) :
  foldl (ResonanceWarp.stage_step (Z.land (Z.shiftr subtype 2) 3)) (input, f) (seq i n) =
  let '(out, regs) :=
    CascadeSpec.cascade (C f !!! ResonanceWarp.nls_a1) (C f !!! ResonanceWarp.nls_a2)
      (C f !!! ResonanceWarp.nls_b0) (C f !!! ResonanceWarp.nls_b1)
      (C f !!! ResonanceWarp.nls_b2) (CascadeSpec.saturator subtype) n i input (R f) in
  (out, QFU (C f) (dC f) regs).
Proof.
  revert i input f. induction n as [|n IH]; intros i input f.
  - simpl. now destruct f.
  - cbn [seq foldl CascadeSpec.cascade].
    unfold ResonanceWarp.stage_step at 2. rewrite doNLFilter_stage.
    unfold ResonanceWarp.nls_z1, ResonanceWarp.nls_z2.
    replace (0 + i * 2)%nat with (2 * i)%nat by lia.
    replace (1 + i * 2)%nat with (2 * i + 1)%nat by lia.
    destruct (CascadeSpec.stage _ _ _ _ _ _ _ _ _) as [[out z1] z2].
    rewrite IH. reflexivity.
Qed.

(** C5.  A ResonanceWarp call is the cascade of the specification: N
    chained stages, N = (subtype & 3) + 1 between 1 and 4, each stage the
    saturated biquad step on its own register pair, the saturator chosen by
    bits 2-3 of the subtype, all stages on the one coefficient set held
    when the call starts; the first five coefficient slots are advanced
    once, [C[i] + dC[i]]. *)
Theorem process_is_cascade (subtype : Z) (f : QuadFilterUnitState) (input : m128) :
  wf_state f ->
  let N := (Z.to_nat (Z.land subtype 3) + 1)%nat in
  (1 <= N <= 4)%nat /\
  N = CascadeSpec.stage_count subtype /\
  ResonanceWarp.process subtype f input =
    let '(out, regs) :=
      CascadeSpec.cascade (C f !!! ResonanceWarp.nls_a1) (C f !!! ResonanceWarp.nls_a2)
        (C f !!! ResonanceWarp.nls_b0) (C f !!! ResonanceWarp.nls_b1)
        (C f !!! ResonanceWarp.nls_b2) (CascadeSpec.saturator subtype) N 0 input (R f) in
    (out, QFU (zip_with add_ps (take 5 (C f)) (take 5 (dC f)) ++ drop 5 (C f)) (dC f) regs).
Proof.
  intros Hwf N. subst N. rewrite land_3_mod.
  pose proof (Z.mod_pos_bound subtype 4 ltac:(lia)) as Hb.
  split; [lia|]. split; [reflexivity|].
  rewrite process_wf by exact Hwf.
  unfold ResonanceWarp.run_stages. rewrite stages_fold_cascade, land_3_mod.
  destruct (CascadeSpec.cascade _ _ _ _ _ _ _ _ _ _) as [out regs]. reflexivity.
Qed.

End Cascade.

Lemma process_is_cascade_witness :
  wf_state (ramp_unit c1) /\
  (1 <= Z.to_nat (Z.land 6 3) + 1 <= 4)%nat.
Proof.
  assert (Hwf : wf_state (ramp_unit c1)) by (repeat split; simpl; lia).
  split; [exact Hwf|].
  exact (proj1 (process_is_cascade (fm := Samples.fastmath_approx) 6 (ramp_unit c1)
                  (set_ps1 c1) Hwf)).
Defined.

Section Frame.
Context {fm : FastMath}.

(** Writes of the cascade stay below register [2 (i + n)]. *)
Lemma cascade_frame (a1 a2 b0 b1 b2 : m128) (sat : m128 -> m128) (n i : nat)
    (input : m128) (regs : list m128) (j : nat) :
  (2 * (i + n) <= j)%nat ->
  (CascadeSpec.cascade a1 a2 b0 b1 b2 sat n i input regs).2 !! j = regs !! j.
Proof.
  revert i input regs. induction n as [|n IH]; intros i input regs Hj; [reflexivity|].
  cbn [CascadeSpec.cascade].
  destruct (CascadeSpec.stage _ _ _ _ _ _ _ _ _) as [[out z1] z2].
  rewrite IH by lia. rewrite !list_lookup_insert_ne by lia. reflexivity.
Qed.

Lemma cascade_length (a1 a2 b0 b1 b2 : m128) (sat : m128 -> m128) (n i : nat)
    (input : m128) (regs : list m128) :
  length (CascadeSpec.cascade a1 a2 b0 b1 b2 sat n i input regs).2 = length regs.
Proof.
  revert i input regs. induction n as [|n IH]; intros i input regs; [reflexivity|].
  cbn [CascadeSpec.cascade].
  destruct (CascadeSpec.stage _ _ _ _ _ _ _ _ _) as [[out z1] z2].
  now rewrite IH, !length_insert.
Qed.

Lemma take_lookup_total (m i : nat) (l k : list m128) :
  (i < m)%nat -> take m l = take m k -> l !!! i = k !!! i.
Proof.
  intros Hi Ht. rewrite !list_lookup_total_alt.
  rewrite <- (lookup_take_lt l m i), <- (lookup_take_lt k m i) by lia. now rewrite Ht.
Qed.

(** Reads of the cascade stay below register [2 (i + n)] as well. *)
Lemma cascade_reads (a1 a2 b0 b1 b2 : m128) (sat : m128 -> m128) (n i m : nat)
    (input : m128) (regs regs' : list m128) :
  (2 * (i + n) <= m)%nat ->
  take m regs = take m regs' ->
  (CascadeSpec.cascade a1 a2 b0 b1 b2 sat n i input regs).1 =
  (CascadeSpec.cascade a1 a2 b0 b1 b2 sat n i input regs').1 /\
  take m (CascadeSpec.cascade a1 a2 b0 b1 b2 sat n i input regs).2 =
  take m (CascadeSpec.cascade a1 a2 b0 b1 b2 sat n i input regs').2.
Proof.
  revert i input regs regs'. induction n as [|n IH]; intros i input regs regs' Hm Ht.
  - split; [reflexivity|exact Ht].
  - cbn [CascadeSpec.cascade].
    rewrite (take_lookup_total m (2 * i) regs regs') by (lia || exact Ht).
    rewrite (take_lookup_total m (2 * i + 1) regs regs') by (lia || exact Ht).
    destruct (CascadeSpec.stage _ _ _ _ _ _ _ _ _) as [[out z1] z2].
    apply IH; [lia|].
    rewrite !take_insert_lt by lia. now rewrite Ht.
Qed.

(** The registers and the output of a call are those of the cascade. *)
Lemma process_registers (subtype : Z) (f : QuadFilterUnitState) (input : m128) :
  let casc :=
    CascadeSpec.cascade (C f !!! ResonanceWarp.nls_a1) (C f !!! ResonanceWarp.nls_a2)
      (C f !!! ResonanceWarp.nls_b0) (C f !!! ResonanceWarp.nls_b1)
      (C f !!! ResonanceWarp.nls_b2) (CascadeSpec.saturator subtype)
      (Z.to_nat (Z.land subtype 3) + 1) 0 input (R f) in
  (ResonanceWarp.process subtype f input).1 = casc.1 /\
  R (ResonanceWarp.process subtype f input).2 = casc.2.
Proof.
  unfold ResonanceWarp.process, ResonanceWarp.run_stages.
  rewrite stages_fold_cascade.
  destruct (CascadeSpec.cascade _ _ _ _ _ _ _ _ _ _) as [out regs].
  cbn [fst snd]. now rewrite advance_loop_R.
Qed.

(** C10.  A call configured for N stages leaves every register slot of
    index [2 N] and above as it was, and neither its output nor the first
    [2 N] registers it leaves depend on those slots. *)
Theorem inactive_registers_untouched (subtype : Z) (f g : QuadFilterUnitState)
    (input : m128) (j : nat) :
  let N := (Z.to_nat (Z.land subtype 3) + 1)%nat in
  ((2 * N <= j)%nat ->
   R (ResonanceWarp.process subtype f input).2 !! j = R f !! j) /\
  length (R (ResonanceWarp.process subtype f input).2) = length (R f) /\
  (C g = C f -> take (2 * N) (R g) = take (2 * N) (R f) ->
   (ResonanceWarp.process subtype g input).1 = (ResonanceWarp.process subtype f input).1 /\
   take (2 * N) (R (ResonanceWarp.process subtype g input).2) =
   take (2 * N) (R (ResonanceWarp.process subtype f input).2)).
Proof.
  intros N.
  destruct (process_registers subtype f input) as [Eo Er].
  destruct (process_registers subtype g input) as [Eo' Er'].
  fold N in Eo, Er, Eo', Er'.
  rewrite Eo, Er, Eo', Er'. split; [|split].
  - intros Hj. apply cascade_frame. lia.
  - apply cascade_length.
  - intros HC HR. rewrite HC. apply cascade_reads; [lia|exact HR].
Qed.

End Frame.

Lemma inactive_registers_untouched_witness :
  (2 * (Z.to_nat (Z.land 0 3) + 1) <= 2)%nat /\
  R (ResonanceWarp.process (fm := Samples.fastmath_approx) 0 scenario_unit (set_ps1 c1)).2
    !! 2%nat = R scenario_unit !! 2%nat.
Proof.
  assert (Hj : (2 * (Z.to_nat (Z.land 0 3) + 1) <= 2)%nat) by (simpl; lia).
  split; [exact Hj|].
  exact (proj1 (inactive_registers_untouched (fm := Samples.fastmath_approx) 0
                  scenario_unit scenario_unit (set_ps1 c1) 2) Hj).
Defined.

(** ** Order of the coefficient advance and the recurrence *)

Section Order.
Context {fm : FastMath}.

(** C1 (as amended).  A K35 call first advances every coefficient slot,
    [C[i] + dC[i]] for all eight [i], and evaluates its recurrence on the
    advanced values.  A ResonanceWarp call evaluates its stages on the
    coefficients as they stand when the call starts: the stages do not write
    [C], output and registers are the same whatever the deltas are, and the
    first five slots are advanced afterwards. *)
Theorem process_advance_order (f : QuadFilterUnitState) (input : m128) (subtype : Z) :
  wf_state f ->
  let adv := QFU (zip_with add_ps (C f) (dC f)) (dC f) (R f) in
  K35Filter.process_lp f input = K35Filter.lp_recurrence adv input /\
  K35Filter.process_hp f input = K35Filter.hp_recurrence adv input /\
  C (ResonanceWarp.run_stages subtype f input).2 = C f /\
  ResonanceWarp.process subtype f input =
    ((ResonanceWarp.run_stages subtype f input).1,
     QFU (zip_with add_ps (take 5 (C f)) (take 5 (dC f)) ++ drop 5 (C f)) (dC f)
         (R (ResonanceWarp.run_stages subtype f input).2)) /\
  (forall d : list m128,
     (ResonanceWarp.process subtype (QFU (C f) d (R f)) input).1 =
     (ResonanceWarp.process subtype f input).1 /\
     R (ResonanceWarp.process subtype (QFU (C f) d (R f)) input).2 =
     R (ResonanceWarp.process subtype f input).2).
Proof.
  intros Hwf adv. split; [|split; [|split; [|split]]].
  - unfold K35Filter.process_lp. now rewrite processCoeffs_wf.
  - unfold K35Filter.process_hp. now rewrite processCoeffs_wf.
  - apply run_stages_C.
  - now apply process_wf.
  - intros d.
    destruct (process_registers subtype f input) as [-> ->].
    destruct (process_registers subtype (QFU (C f) d (R f)) input) as [-> ->].
    split; reflexivity.
Qed.

End Order.

Lemma process_advance_order_witness :
  wf_state (ramp_unit c1) /\
  K35Filter.process_lp (fm := Samples.fastmath_approx) (ramp_unit c1) (set_ps1 c1) =
  K35Filter.lp_recurrence (fm := Samples.fastmath_approx)
    (QFU (zip_with add_ps (C (ramp_unit c1)) (dC (ramp_unit c1)))
         (dC (ramp_unit c1)) (R (ramp_unit c1))) (set_ps1 c1).
Proof.
  assert (Hwf : wf_state (ramp_unit c1)) by (repeat split; simpl; lia).
  split; [exact Hwf|].
  exact (proj1 (process_advance_order (fm := Samples.fastmath_approx)
                  (ramp_unit c1) (set_ps1 c1) 0 Hwf)).
Defined.

(** C1 fails for ResonanceWarp: with [C = 0] and [dC = 1] the output of a
    one-stage call on input 1 is 0, the output of the stage on the coefficients
    before the advance; on the advanced coefficients it would be 1. *)
Lemma resonancewarp_runs_before_advance :
  let f := (ramp_unit c1) in
  let adv := QFU (zip_with add_ps (C f) (dC f)) (dC f) (R f) in
  (ResonanceWarp.process (fm := Samples.fastmath_approx) 0 f (set_ps1 c1)).1 = setzero_ps /\
  (ResonanceWarp.run_stages (fm := Samples.fastmath_approx) 0 adv (set_ps1 c1)).1 = set_ps1 c1 /\
  (ResonanceWarp.process (fm := Samples.fastmath_approx) 0 f (set_ps1 c1)).1 <>
  (ResonanceWarp.run_stages (fm := Samples.fastmath_approx) 0 adv (set_ps1 c1)).1.
Proof. vm_compute. repeat split; discriminate. Qed.


Lemma advance_loop_lookup_total (n i : nat) (f : QuadFilterUnitState) :
  (n <= length (C f))%nat ->
  C (advance_loop n f) !!! i =
  if (i <? n)%nat then add_ps (C f !!! i) (dC f !!! i) else C f !!! i.
Proof.
  intros Hn. rewrite !(list_lookup_total_alt (C _)), advance_loop_lookup.
  destruct (i <? n)%nat eqn:E; [|reflexivity].
  apply Nat.ltb_lt in E.
  destruct (lookup_lt_is_Some_2 (C f) i) as [c Hc]; [lia|]. now rewrite Hc.
Qed.

Section Ramp.
Context {fm : FastMath}.

Lemma lp_recurrence_R_length (f : QuadFilterUnitState) (x : m128) :
  length (R (K35Filter.lp_recurrence f x).2) = length (R f).
Proof. unfold K35Filter.lp_recurrence. simpl. now rewrite !length_insert. Qed.

Lemma hp_recurrence_R_length (f : QuadFilterUnitState) (x : m128) :
  length (R (K35Filter.hp_recurrence f x).2) = length (R f).
Proof. unfold K35Filter.hp_recurrence. simpl. now rewrite !length_insert. Qed.

Lemma advance_loop_wf (n : nat) (f : QuadFilterUnitState) :
  wf_state f -> wf_state (advance_loop n f).
Proof.
  intros (Hc & Hd & Hr). unfold wf_state.
  now rewrite advance_loop_length, advance_loop_dC, advance_loop_R.
Qed.

Lemma process_lp_advances : advances n_cm_coeffs K35Filter.process_lp.
Proof.
  intros f x Hwf. unfold K35Filter.process_lp, K35Filter.processCoeffs.
  pose proof (advance_loop_wf n_cm_coeffs f Hwf) as (Hc & Hd & Hr).
  destruct (lp_recurrence_C (advance_loop n_cm_coeffs f) x) as [Ec Ed].
  split; [|split].
  - unfold wf_state. rewrite Ec, Ed, lp_recurrence_R_length. auto.
  - rewrite Ed. apply advance_loop_dC.
  - intros i. rewrite Ec. apply advance_loop_lookup_total.
    destruct Hwf as (Hc' & _). lia.
Qed.

Lemma process_hp_advances : advances n_cm_coeffs K35Filter.process_hp.
Proof.
  intros f x Hwf. unfold K35Filter.process_hp, K35Filter.processCoeffs.
  pose proof (advance_loop_wf n_cm_coeffs f Hwf) as (Hc & Hd & Hr).
  destruct (hp_recurrence_C (advance_loop n_cm_coeffs f) x) as [Ec Ed].
  split; [|split].
  - unfold wf_state. rewrite Ec, Ed, hp_recurrence_R_length. auto.
  - rewrite Ed. apply advance_loop_dC.
  - intros i. rewrite Ec. apply advance_loop_lookup_total.
    destruct Hwf as (Hc' & _). lia.
Qed.

Lemma stages_fold_R_length (sat : Z) (l : list nat) (acc : m128 * QuadFilterUnitState) :
  length (R (foldl (ResonanceWarp.stage_step sat) acc l).2) = length (R acc.2).
Proof.
  revert acc. induction l as [|s l IH]; intros acc; [reflexivity|].
  simpl. rewrite IH. destruct acc as [x f]. unfold ResonanceWarp.stage_step.
  destruct (ResonanceWarp.doNLFilter _ _ _ _ _ _ _ _ _) as [[out z1] z2].
  simpl. now rewrite !length_insert.
Qed.

Lemma process_advances (subtype : Z) :
  advances ResonanceWarp.n_nls_coeff (ResonanceWarp.process subtype).
Proof.
  intros f x (Hc & Hd & Hr). unfold ResonanceWarp.process.
  destruct (run_stages_C subtype f x) as [Ec Ed].
  pose proof (stages_fold_R_length (Z.land (Z.shiftr subtype 2) 3)
                (seq 0 (Z.to_nat (Z.land subtype 3) + 1)) (x, f)) as Er.
  fold (ResonanceWarp.run_stages subtype f x) in Er.
  destruct (ResonanceWarp.run_stages subtype f x) as [out f']. cbn [fst snd] in *.
  split; [|split].
  - unfold wf_state. rewrite advance_loop_length, advance_loop_dC, advance_loop_R.
    rewrite Ec, Ed, Er. auto.
  - rewrite advance_loop_dC. exact Ed.
  - intros i. rewrite advance_loop_lookup_total, Ec, Ed; [reflexivity|].
    rewrite Ec, Hc. unfold ResonanceWarp.n_nls_coeff, n_cm_coeffs. lia.
Qed.

(** After a block, slot [i < n] holds the repeated sum
    [((C[i] + dC[i]) + dC[i]) + ...], one addition per call, whatever the
    inputs; the other slots are as they were. *)
Lemma process_block_ramp (n : nat) proc (inputs : list m128)
    (f : QuadFilterUnitState) (i : nat) :
  advances n proc -> wf_state f ->
  C (process_block proc f inputs).2 !!! i =
  if (i <? n)%nat
  then Nat.iter (length inputs) (fun c => add_ps c (dC f !!! i)) (C f !!! i)
  else C f !!! i.
Proof.
  intros Hadv. revert f. induction inputs as [|x rest IH]; intros f Hwf.
  - simpl. now destruct (i <? n)%nat.
  - cbn [process_block length].
    destruct (Hadv f x Hwf) as (Hwf' & Hd & Hc). specialize (Hc i).
    destruct (proc f x) as [y f1]. cbn [fst snd] in *.
    specialize (IH f1 Hwf').
    destruct (process_block proc f1 rest) as [ys f2]. cbn [fst snd] in *.
    rewrite IH, Hd, Hc. destruct (i <? n)%nat; [|reflexivity].
    now rewrite Nat.iter_succ_r.
Qed.

(** C7 (as amended).  After [N] calls on arbitrary inputs, coefficient slot
    [i] holds the [N]-fold binary32 sum [((C[i] + dC[i]) + dC[i]) + ...]
    (each addition rounded), in all eight slots for K35 and in the first
    five for ResonanceWarp, whose slots 5 to 7 are never advanced. *)
Theorem coefficient_ramp (f : QuadFilterUnitState) (inputs : list m128)
    (subtype : Z) (i : nat) :
  wf_state f ->
  let ramp := Nat.iter (length inputs) (fun c => add_ps c (dC f !!! i)) (C f !!! i) in
  ((i < 8)%nat ->
     C (process_block K35Filter.process_lp f inputs).2 !!! i = ramp /\
     C (process_block K35Filter.process_hp f inputs).2 !!! i = ramp) /\
  ((i < 5)%nat ->
     C (process_block (ResonanceWarp.process subtype) f inputs).2 !!! i = ramp) /\
  ((5 <= i)%nat ->
     C (process_block (ResonanceWarp.process subtype) f inputs).2 !!! i = C f !!! i).
Proof.
  intros Hwf ramp.
  pose proof (process_block_ramp _ _ inputs f i process_lp_advances Hwf) as Hlp.
  pose proof (process_block_ramp _ _ inputs f i process_hp_advances Hwf) as Hhp.
  pose proof (process_block_ramp _ _ inputs f i (process_advances subtype) Hwf) as Hrw.
  unfold n_cm_coeffs, ResonanceWarp.n_nls_coeff in *.
  split; [|split]; intros Hi.
  - apply Nat.ltb_lt in Hi. rewrite Hi in Hlp, Hhp. now split.
  - apply Nat.ltb_lt in Hi. now rewrite Hi in Hrw.
  - apply Nat.ltb_ge in Hi. now rewrite Hi in Hrw.
Qed.

End Ramp.


Lemma coefficient_ramp_witness :
  let f := ramp_unit (of_ratio 1 4) in
  let inputs := replicate 4 (set_ps1 c1) in
  wf_state f /\
  C (process_block (K35Filter.process_lp (fm := Samples.fastmath_approx)) f inputs).2 !!! 0%nat
    = Nat.iter 4 (fun c => add_ps c (dC f !!! 0%nat)) (C f !!! 0%nat) /\
  Nat.iter 4 (fun c => add_ps c (dC f !!! 0%nat)) (C f !!! 0%nat)
    = set_ps1 (mul (of_Z 4) (of_ratio 1 4)).
Proof.
  intros f inputs.
  assert (Hwf : wf_state f) by (repeat split; simpl; lia).
  split; [exact Hwf|]. split; [|reflexivity].
  exact (proj1 (proj1 (coefficient_ramp (fm := Samples.fastmath_approx) f inputs 0 0%nat Hwf)
                  ltac:(lia))).
Defined.

(** C7 fails as stated, twice over.  With [C = 0] and [dC = 1], one
    ResonanceWarp call leaves slot 5 at 0, not at 1.  With [C = 0] and
    [dC = 0.1f], ten K35 calls leave 8388609 * 2^-23 (1.0000001) in slot 0,
    while 10 * 0.1f is 8388608 * 2^-23 (1.0f). *)
Lemma ramp_is_not_N_times_delta :
  let rw := C (ResonanceWarp.process (fm := Samples.fastmath_approx) 0 (ramp_unit c1)
                 (set_ps1 c1)).2 !!! 5%nat in
  let k35 := C (process_block (K35Filter.process_lp (fm := Samples.fastmath_approx))
                  (ramp_unit c0_1) (replicate 10 (set_ps1 c1))).2 !!! 0%nat in
  (rw = setzero_ps /\ rw <> set_ps1 (mul (of_Z 1) c1)) /\
  (k35 = set_ps1 (S754_finite false 8388609 (-23)) /\
   mul (of_Z 10) c0_1 = S754_finite false 8388608 (-23) /\
   k35 <> set_ps1 (mul (of_Z 10) c0_1)).
Proof. vm_compute. repeat split; discriminate. Qed.

(** ** The clamps *)

Lemma clamp_bounds (v lo hi : f32) :
  is_nan v = false -> le lo hi = true ->
  le lo (clamp v lo hi) = true /\ le (clamp v lo hi) hi = true.
Proof.
  intros Hv Hlh. destruct (le_not_nan lo hi Hlh) as [Hlo Hhi]. unfold clamp.
  destruct (lt v lo) eqn:E1.
  - split; [now apply le_refl|exact Hlh].
  - destruct (lt hi v) eqn:E2.
    + split; [exact Hlh|now apply le_refl].
    + split; now apply not_lt_le.
Qed.

Lemma clamp_k_bounds (k : f32) :
  is_nan k = false ->
  le c0_01 (K35Filter.clamp_k k) = true /\ le (K35Filter.clamp_k k) c1_96 = true.
Proof.
  intros Hk. unfold K35Filter.clamp_k.
  destruct (lt c1_96 k) eqn:E1; [split; reflexivity|].
  destruct (lt k c0_01) eqn:E2; [split; reflexivity|].
  split; now apply not_lt_le.
Qed.

Lemma clamp_k_not_zero (k : f32) : is_zero (K35Filter.clamp_k k) = false.
Proof.
  unfold K35Filter.clamp_k.
  destruct (lt c1_96 k) eqn:E1; [reflexivity|].
  destruct (lt k c0_01) eqn:E2; [reflexivity|].
  destruct k as [[]| | |]; try reflexivity; discriminate.
Qed.

(** The two tests of [clamp_k] exclude each other, so their order does not
    matter: [clamp_k] is [std::clamp] with bounds 0.01f and 1.96f. *)
Lemma clamp_k_is_clamp (k : f32) : K35Filter.clamp_k k = clamp k c0_01 c1_96.
Proof.
  unfold K35Filter.clamp_k, clamp.
  destruct (lt c1_96 k) eqn:E1, (lt k c0_01) eqn:E2; try reflexivity.
  exfalso. destruct k as [[]|[]| |[] m e]; try discriminate.
  unfold lt, SFltb, SFcompare, c1_96, c0_01 in E1, E2.
  destruct (Z.compare_spec (-23) e), (Z.compare_spec e (-30)); try lia; discriminate.
Qed.

(** Within the precondition of [std::clamp] the two ways of computing it
    agree, NaN operands included. *)
Lemma clamp_is_min_max (v lo hi : f32) :
  lt hi lo = false -> clamp v lo hi = clamp_min_max v lo hi.
Proof.
  intros H. unfold clamp, clamp_min_max.
  destruct (lt v lo); [now rewrite H|reflexivity].
Qed.

Lemma fminf_le (x y : f32) : is_nan y = false -> le (fminf x y) y = true.
Proof.
  intros Hy. unfold fminf. destruct (is_nan x) eqn:Hx; [now apply le_refl|].
  rewrite Hy. destruct (lt x y) eqn:E; [now apply lt_le|now apply le_refl].
Qed.

Section Coefficients.
Context {tuning : TuningProvider} {fm : FastMath} {ft : FilterTypes}.

Lemma k35_slots (freq reso : f32) (is_lowpass : bool)
    (saturation sampleRate sampleRateInv : f32) :
  let N := K35Filter.makeCoefficients freq reso is_lowpass saturation sampleRate
                                       sampleRateInv in
  length N = n_cm_coeffs /\
  N !!! K35Filter.k35_k = K35Filter.clamp_k (mul reso c1_96) /\
  N !!! K35Filter.k35_saturation = saturation /\
  N !!! K35Filter.k35_saturation_blend = fminf saturation c1 /\
  N !!! K35Filter.k35_saturation_blend_inv = sub c1 (fminf saturation c1).
Proof.
  unfold K35Filter.makeCoefficients. destruct is_lowpass; repeat split; reflexivity.
Qed.

Lemma resonancewarp_length (freq reso : f32) (type : Z) (sampleRate : f32) :
  length (ResonanceWarp.makeCoefficients freq reso type sampleRate) = n_cm_coeffs.
Proof.
  unfold ResonanceWarp.makeCoefficients.
  destruct (type =? fut_resonancewarp_lp); [reflexivity|].
  destruct (type =? fut_resonancewarp_hp); [reflexivity|].
  destruct (type =? fut_resonancewarp_n); [reflexivity|].
  destruct (type =? fut_resonancewarp_bp); reflexivity.
Qed.

(** C4.  The resonance coefficient of a derived K35 vector is
    [clamp(reso * 1.96, 0.01, 1.96)], and for every resonance that is a
    number it lies in [0.01, 1.96]. *)
Theorem k35_resonance_bound (freq reso : f32) (is_lowpass : bool)
    (saturation sampleRate sampleRateInv : f32) :
  let N := K35Filter.makeCoefficients freq reso is_lowpass saturation sampleRate
                                       sampleRateInv in
  let k := N !!! K35Filter.k35_k in
  k = clamp (mul reso c1_96) c0_01 c1_96 /\
  (is_nan reso = false -> le c0_01 k = true /\ le k c1_96 = true).
Proof.
  intros N k. subst k N.
  destruct (k35_slots freq reso is_lowpass saturation sampleRate sampleRateInv)
    as (_ & -> & _).
  split; [apply clamp_k_is_clamp|].
  intros Hr. apply clamp_k_bounds.
  now apply mul_finite_not_nan.
Qed.

End Coefficients.

Lemma k35_resonance_bound_witness :
  is_nan c0_5 = false /\
  le c0_01 (scenario_coeffs !!! K35Filter.k35_k) = true /\
  le (scenario_coeffs !!! K35Filter.k35_k) c1_96 = true.
Proof.
  assert (Hr : is_nan c0_5 = false) by reflexivity.
  split; [exact Hr|].
  exact (proj2 (k35_resonance_bound (tuning := Samples.tuning_60Hz)
                  (fm := Samples.fastmath_approx)
                  c0 c0_5 true c0 (of_Z 48000) (of_ratio 1 48000)) Hr).
Defined.

Section Divisor.
Context {tuning : TuningProvider} {fm : FastMath} {ft : FilterTypes}.

Lemma fresh_unit_advanced (N : list f32) (nreg i : nat) :
  (i < length N)%nat -> is_zero (N !!! i) = false ->
  C (advance_loop (length N) (fresh_unit N nreg)) !!! i = set_ps1 (N !!! i).
Proof.
  intros Hi Hz. rewrite advance_loop_lookup_total by (simpl; now rewrite length_fmap).
  apply Nat.ltb_lt in Hi as Hi'. rewrite Hi'. cbn [C dC fresh_unit].
  rewrite (list_lookup_total_fmap set_ps1 N i) by lia.
  rewrite lookup_total_replicate_2 by lia.
  unfold add_ps, lift2, set_ps1, setzero_ps. simpl.
  now rewrite add_zero_r.
Qed.

(** C9.  In a unit loaded with a vector of K35 [makeCoefficients] the
    divisor of [process_lp] and [process_hp], slot [k35_k] after
    [processCoeffs], is the clamped [k] in every lane; it is never a zero,
    and at least 0.01 whenever the resonance is a number. *)
Theorem k35_divisor_nonzero (freq reso : f32) (is_lowpass : bool)
    (saturation sampleRate sampleRateInv : f32) (nreg : nat) (input : m128) :
  let N := K35Filter.makeCoefficients freq reso is_lowpass saturation sampleRate
                                       sampleRateInv in
  let k := N !!! K35Filter.k35_k in
  is_zero k = false /\
  (is_nan reso = false -> le c0_01 k = true) /\
  C (K35Filter.processCoeffs (fresh_unit N nreg)) !!! K35Filter.k35_k = set_ps1 k /\
  (exists y, (K35Filter.process_lp (fresh_unit N nreg) input).1 = div_ps y (set_ps1 k)) /\
  (exists y, (K35Filter.process_hp (fresh_unit N nreg) input).1 = div_ps y (set_ps1 k)).
Proof.
  intros N k.
  destruct (k35_slots freq reso is_lowpass saturation sampleRate sampleRateInv)
    as (Hlen & Hk & _).
  fold N in Hlen, Hk.
  assert (Hz : is_zero k = false) by (unfold k; rewrite Hk; apply clamp_k_not_zero).
  assert (Hadv : C (K35Filter.processCoeffs (fresh_unit N nreg)) !!! K35Filter.k35_k
                 = set_ps1 k).
  { unfold K35Filter.processCoeffs. rewrite <- Hlen.
    apply fresh_unit_advanced; [rewrite Hlen; unfold K35Filter.k35_k, n_cm_coeffs; lia|].
    exact Hz. }
  split; [exact Hz|]. split.
  { intros Hr. unfold k. rewrite Hk. apply clamp_k_bounds. now apply mul_finite_not_nan. }
  split; [exact Hadv|]. split.
  - unfold K35Filter.process_lp, K35Filter.lp_recurrence.
    set (f := K35Filter.processCoeffs (fresh_unit N nreg)) in *.
    eexists. cbn [fst snd C set_R K35Filter.doLpf K35Filter.doHpf].
    rewrite Hadv. reflexivity.
  - unfold K35Filter.process_hp, K35Filter.hp_recurrence.
    set (f := K35Filter.processCoeffs (fresh_unit N nreg)) in *.
    eexists. cbn [fst snd C set_R K35Filter.doLpf K35Filter.doHpf].
    rewrite Hadv. reflexivity.
Qed.

(** The siblings of the saturation are clamped on both sides.  A vector of
    either maker depends on the pitch only through the clamped frequency,
    which lies in [5, 0.3 sampleRate]; the K35 vector depends on the
    resonance only through [k] clamped into [0.01, 1.96], the ResonanceWarp
    vector only through the resonance clamped into [0, 1].  So an input
    beyond a bound gives the vector of the bound. *)
Lemma frequency_and_resonance_are_clamped (pitch reso : f32) (is_lowpass : bool)
    (type : Z) (saturation sampleRate sampleRateInv : f32) :
  let freq := mul (note_to_pitch_ignoring_tuning (add pitch c69)) MIDI_0_FREQ in
  let hi := mul sampleRate c0_3 in
  (K35Filter.clampedFrequency pitch sampleRate = clamp freq c5 hi /\
   ResonanceWarp.clampedFrequency pitch sampleRate = clamp freq c5 hi /\
   (is_nan freq = false -> le c5 hi = true ->
    le c5 (clamp freq c5 hi) = true /\ le (clamp freq c5 hi) hi = true)) /\
  (forall pitch',
     K35Filter.clampedFrequency pitch' sampleRate =
       K35Filter.clampedFrequency pitch sampleRate ->
     K35Filter.makeCoefficients pitch' reso is_lowpass saturation sampleRate sampleRateInv =
       K35Filter.makeCoefficients pitch reso is_lowpass saturation sampleRate sampleRateInv /\
     ResonanceWarp.makeCoefficients pitch' reso type sampleRate =
       ResonanceWarp.makeCoefficients pitch reso type sampleRate) /\
  (forall reso',
     clamp (mul reso' c1_96) c0_01 c1_96 = clamp (mul reso c1_96) c0_01 c1_96 ->
     K35Filter.makeCoefficients pitch reso' is_lowpass saturation sampleRate sampleRateInv =
       K35Filter.makeCoefficients pitch reso is_lowpass saturation sampleRate sampleRateInv) /\
  (forall reso',
     clamp reso' c0 c1 = clamp reso c0 c1 ->
     ResonanceWarp.makeCoefficients pitch reso' type sampleRate =
       ResonanceWarp.makeCoefficients pitch reso type sampleRate) /\
  (is_nan reso = false ->
   le c0 (clamp reso c0 c1) = true /\ le (clamp reso c0 c1) c1 = true).
Proof.
  intros freq hi.
  split; [|split; [|split; [|split]]].
  - split; [reflexivity|]. split; [reflexivity|].
    intros Hf Hhi. now apply clamp_bounds.
  - intros pitch' Hp.
    assert (Hp' : ResonanceWarp.clampedFrequency pitch' sampleRate =
                  ResonanceWarp.clampedFrequency pitch sampleRate) by exact Hp.
    split.
    + unfold K35Filter.makeCoefficients. now rewrite Hp.
    + unfold ResonanceWarp.makeCoefficients. now rewrite Hp'.
  - intros reso' Hr. rewrite <- !clamp_k_is_clamp in Hr.
    unfold K35Filter.makeCoefficients. now rewrite Hr.
  - intros reso' Hr.
    unfold ResonanceWarp.makeCoefficients, ResonanceWarp.resonance_q. now rewrite Hr.
  - intros Hr. now apply clamp_bounds.
Qed.

(** The saturation has no lower clamp: every amount below zero is its own
    blend weight. *)
Lemma negative_saturation_passes (freq reso : f32) (is_lowpass : bool)
    (saturation sampleRate sampleRateInv : f32) :
  let N := K35Filter.makeCoefficients freq reso is_lowpass saturation sampleRate
                                       sampleRateInv in
  lt saturation c0 = true ->
  N !!! K35Filter.k35_saturation_blend = saturation /\
  lt (N !!! K35Filter.k35_saturation_blend) c0 = true.
Proof.
  intros N Hs.
  destruct (k35_slots freq reso is_lowpass saturation sampleRate sampleRateInv)
    as (_ & _ & _ & Hb & _).
  fold N in Hb. rewrite Hb.
  assert (Hf : fminf saturation c1 = saturation).
  { destruct saturation as [[]|[]| |[] m e]; try discriminate Hs; reflexivity. }
  rewrite Hf. split; [reflexivity|exact Hs].
Qed.

End Divisor.

Lemma k35_divisor_nonzero_witness :
  is_nan c0_5 = false /\ le c0_01 (scenario_coeffs !!! K35Filter.k35_k) = true.
Proof.
  assert (Hr : is_nan c0_5 = false) by reflexivity.
  split; [exact Hr|].
  exact (proj1 (proj2 (k35_divisor_nonzero (tuning := Samples.tuning_60Hz)
                         (fm := Samples.fastmath_approx)
                         c0 c0_5 true c0 (of_Z 48000) (of_ratio 1 48000) 8 (set_ps1 c1)))
               Hr).
Defined.

(** C6.  The saturation is not clamped from below.  At the amount -0.5f
    (resonance 0.5, lowpass, 48 kHz) [makeCoefficients] stores -0.5 as the
    amount and as the blend weight, a slot that the comment of its enum
    describes as clamped to 0..1, and 1.5 as the inverse weight. *)
Theorem negative_saturation_not_clamped :
  let N := K35Filter.makeCoefficients (tuning := Samples.tuning_60Hz)
             (fm := Samples.fastmath_approx)
             c0 c0_5 true cm0_5 (of_Z 48000) (of_ratio 1 48000) in
  N !!! K35Filter.k35_saturation = cm0_5 /\
  N !!! K35Filter.k35_saturation_blend = cm0_5 /\
  lt (N !!! K35Filter.k35_saturation_blend) c0 = true /\
  N !!! K35Filter.k35_saturation_blend_inv = of_ratio 3 2 /\
  lt c1 (N !!! K35Filter.k35_saturation_blend_inv) = true.
Proof. vm_compute. repeat split. Qed.

Section Lanes.
Context {fm : FastMath}.
Variable i : lane.

Lemma lane_eq_refl (a : m128) : lane_eq i a a.
Proof. reflexivity. Qed.

Lemma lift2_lane_eq (op : f32 -> f32 -> f32) (a a' b b' : m128) :
  lane_eq i a a' -> lane_eq i b b' -> lane_eq i (lift2 op a b) (lift2 op a' b').
Proof. unfold lane_eq. destruct i; simpl; congruence. Qed.

Lemma lift1_lane_eq (op : f32 -> f32) (a a' : m128) :
  lane_eq i a a' -> lane_eq i (lift1 op a) (lift1 op a').
Proof. unfold lane_eq. destruct i; simpl; congruence. Qed.

Lemma add_ps_lane_eq (a a' b b' : m128) :
  lane_eq i a a' -> lane_eq i b b' -> lane_eq i (add_ps a b) (add_ps a' b').
Proof. apply lift2_lane_eq. Qed.

Lemma sub_ps_lane_eq (a a' b b' : m128) :
  lane_eq i a a' -> lane_eq i b b' -> lane_eq i (sub_ps a b) (sub_ps a' b').
Proof. apply lift2_lane_eq. Qed.

Lemma mul_ps_lane_eq (a a' b b' : m128) :
  lane_eq i a a' -> lane_eq i b b' -> lane_eq i (mul_ps a b) (mul_ps a' b').
Proof. apply lift2_lane_eq. Qed.

Lemma div_ps_lane_eq (a a' b b' : m128) :
  lane_eq i a a' -> lane_eq i b b' -> lane_eq i (div_ps a b) (div_ps a' b').
Proof. apply lift2_lane_eq. Qed.

Lemma fasttanh_lane_eq (a a' : m128) :
  lane_eq i a a' -> lane_eq i (fasttanhSSEclamped a) (fasttanhSSEclamped a').
Proof. apply lift1_lane_eq. Qed.

Lemma softclip_lane_eq (a a' : m128) :
  lane_eq i a a' -> lane_eq i (softclip_ps a) (softclip_ps a').
Proof. apply lift1_lane_eq. Qed.

Lemma lookup_total_lane_eq (l k : list m128) (j : nat) :
  Forall2 (lane_eq i) l k -> lane_eq i (l !!! j) (k !!! j).
Proof.
  intros Hlk. revert j. induction Hlk as [|a b l k Hab _ IH]; intros j.
  - reflexivity.
  - destruct j as [|j]; [exact Hab|apply IH].
Qed.

Lemma insert_lane_eq (l k : list m128) (j : nat) (a b : m128) :
  Forall2 (lane_eq i) l k -> lane_eq i a b ->
  Forall2 (lane_eq i) (<[j := a]> l) (<[j := b]> k).
Proof. intros Hlk Hab. now apply Forall2_insert. Qed.

(** Congruence, one constructor of the expression at a time. *)
Ltac lanes :=
  repeat first
    [ assumption
    | apply add_ps_lane_eq | apply sub_ps_lane_eq | apply mul_ps_lane_eq
    | apply div_ps_lane_eq | apply fasttanh_lane_eq | apply softclip_lane_eq
    | apply lookup_total_lane_eq | apply insert_lane_eq ].

Lemma advance_loop_lane_eq (n : nat) (f g : QuadFilterUnitState) :
  state_lane_eq i f g -> state_lane_eq i (advance_loop n f) (advance_loop n g).
Proof.
  intros Hfg. induction n as [|n IH]; [exact Hfg|].
  rewrite !advance_loop_S. destruct IH as (Hc & Hd & Hr).
  unfold state_lane_eq, set_C; cbn [C dC R]. repeat split; lanes.
Qed.

Lemma lp_recurrence_lane_eq (f g : QuadFilterUnitState) (x y : m128) :
  state_lane_eq i f g -> lane_eq i x y ->
  lane_eq i (K35Filter.lp_recurrence f x).1 (K35Filter.lp_recurrence g y).1 /\
  state_lane_eq i (K35Filter.lp_recurrence f x).2 (K35Filter.lp_recurrence g y).2.
Proof.
  intros (Hc & Hd & Hr) Hxy.
  unfold state_lane_eq, K35Filter.lp_recurrence, K35Filter.doHpf, K35Filter.doLpf, set_R.
  cbn [fst snd C dC R].
  repeat split; lanes.
Qed.

Lemma hp_recurrence_lane_eq (f g : QuadFilterUnitState) (x y : m128) :
  state_lane_eq i f g -> lane_eq i x y ->
  lane_eq i (K35Filter.hp_recurrence f x).1 (K35Filter.hp_recurrence g y).1 /\
  state_lane_eq i (K35Filter.hp_recurrence f x).2 (K35Filter.hp_recurrence g y).2.
Proof.
  intros (Hc & Hd & Hr) Hxy.
  unfold state_lane_eq, K35Filter.hp_recurrence, K35Filter.doHpf, K35Filter.doLpf, set_R.
  cbn [fst snd C dC R].
  repeat split; lanes.
Qed.

Lemma stage_step_lane_eq (sat : Z) (acc acc' : m128 * QuadFilterUnitState) (s : nat) :
  lane_eq i acc.1 acc'.1 -> state_lane_eq i acc.2 acc'.2 ->
  lane_eq i (ResonanceWarp.stage_step sat acc s).1 (ResonanceWarp.stage_step sat acc' s).1 /\
  state_lane_eq i (ResonanceWarp.stage_step sat acc s).2
                  (ResonanceWarp.stage_step sat acc' s).2.
Proof.
  destruct acc as [x f], acc' as [y g]. cbn [fst snd]. intros Hxy (Hc & Hd & Hr).
  unfold state_lane_eq, ResonanceWarp.stage_step, ResonanceWarp.doNLFilter, set_R.
  destruct (sat =? ResonanceWarp.SAT_TANH); cbn [fst snd C dC R];
    repeat split; lanes.
Qed.

Lemma stages_fold_lane_eq (sat : Z) (l : list nat) (acc acc' : m128 * QuadFilterUnitState) :
  lane_eq i acc.1 acc'.1 -> state_lane_eq i acc.2 acc'.2 ->
  lane_eq i (foldl (ResonanceWarp.stage_step sat) acc l).1
            (foldl (ResonanceWarp.stage_step sat) acc' l).1 /\
  state_lane_eq i (foldl (ResonanceWarp.stage_step sat) acc l).2
                  (foldl (ResonanceWarp.stage_step sat) acc' l).2.
Proof.
  revert acc acc'. induction l as [|s l IH]; intros acc acc' Hx Hf; [now split|].
  cbn [foldl]. destruct (stage_step_lane_eq sat acc acc' s Hx Hf) as [Hx' Hf'].
  now apply IH.
Qed.

(** C8.  Lane [i] of the output, of every register and of every coefficient
    after a call is determined by lane [i] of the input, of the registers
    and of the coefficients and deltas before it: two calls that agree in
    lane [i] before agree in lane [i] after, whatever the other lanes hold. *)
Theorem lanes_never_interact (subtype : Z) (f g : QuadFilterUnitState) (x y : m128) :
  state_lane_eq i f g -> lane_eq i x y ->
  (lane_eq i (K35Filter.process_lp f x).1 (K35Filter.process_lp g y).1 /\
   state_lane_eq i (K35Filter.process_lp f x).2 (K35Filter.process_lp g y).2) /\
  (lane_eq i (K35Filter.process_hp f x).1 (K35Filter.process_hp g y).1 /\
   state_lane_eq i (K35Filter.process_hp f x).2 (K35Filter.process_hp g y).2) /\
  (lane_eq i (ResonanceWarp.process subtype f x).1 (ResonanceWarp.process subtype g y).1 /\
   state_lane_eq i (ResonanceWarp.process subtype f x).2
                   (ResonanceWarp.process subtype g y).2).
Proof.
  intros Hfg Hxy. split; [|split].
  - apply lp_recurrence_lane_eq; [now apply advance_loop_lane_eq|exact Hxy].
  - apply hp_recurrence_lane_eq; [now apply advance_loop_lane_eq|exact Hxy].
  - unfold ResonanceWarp.process, ResonanceWarp.run_stages.
    pose proof (stages_fold_lane_eq (Z.land (Z.shiftr subtype 2) 3)
                  (seq 0 (Z.to_nat (Z.land subtype 3) + 1)) (x, f) (y, g) Hxy Hfg)
      as [Ho Hs].
    do 2 destruct (foldl _ _ _) as [? ?]. cbn [fst snd] in *.
    split; [exact Ho|now apply advance_loop_lane_eq].
Qed.

End Lanes.

Lemma lanes_never_interact_witness :
  let f := scenario_unit in
  let g := QFU (C f) (dC f) (replicate 8 (M128 pzero c1 c2 c5)) in
  let x := set_ps1 c1 in
  let y := M128 c1 c2 c0 c5 in
  state_lane_eq L0 f g /\ lane_eq L0 x y /\
  lane_eq L0 (K35Filter.process_lp (fm := Samples.fastmath_approx) f x).1
             (K35Filter.process_lp (fm := Samples.fastmath_approx) g y).1.
Proof.
  intros f g x y.
  assert (Hfg : state_lane_eq L0 f g) by (repeat split; vm_compute; repeat constructor).
  assert (Hxy : lane_eq L0 x y) by reflexivity.
  split; [exact Hfg|]. split; [exact Hxy|].
  exact (proj1 (proj1 (lanes_never_interact (fm := Samples.fastmath_approx) L0 0
                         f g x y Hfg Hxy))).
Defined.


Lemma zero_is_finite (x : f32) : is_zero x = true -> is_finite x = true.
Proof. destruct x; simpl; congruence. Qed.

Lemma setzero_zero_ps : zero_ps setzero_ps.
Proof. repeat split. Qed.

Lemma zero_finite_ps (v : m128) : zero_ps v -> finite_ps v.
Proof. intros (H0 & H1 & H2 & H3). repeat split; now apply zero_is_finite. Qed.

Lemma add_ps_zero (a b : m128) : zero_ps a -> zero_ps b -> zero_ps (add_ps a b).
Proof.
  intros (A0 & A1 & A2 & A3) (B0 & B1 & B2 & B3). repeat split; now apply add_zero_zero.
Qed.

Lemma sub_ps_zero_zero (a b : m128) : zero_ps a -> zero_ps b -> zero_ps (sub_ps a b).
Proof.
  intros (A0 & A1 & A2 & A3) (B0 & B1 & B2 & B3). repeat split; now apply sub_zero_zero.
Qed.

Lemma mul_ps_coef_l (c a : m128) : finite_ps c -> zero_ps a -> zero_ps (mul_ps c a).
Proof.
  intros (A0 & A1 & A2 & A3) (B0 & B1 & B2 & B3). repeat split; now apply mul_zero_r.
Qed.

Lemma mul_ps_coef_r (a c : m128) : finite_ps c -> zero_ps a -> zero_ps (mul_ps a c).
Proof.
  intros (A0 & A1 & A2 & A3) (B0 & B1 & B2 & B3). repeat split; now apply mul_zero_l.
Qed.

Lemma div_ps_zero (a k : m128) :
  finite_ps k -> nonzero_ps k -> zero_ps a -> zero_ps (div_ps a k).
Proof.
  intros (A0 & A1 & A2 & A3) (N0 & N1 & N2 & N3) (B0 & B1 & B2 & B3).
  apply negb_true_iff in N0, N1, N2, N3. repeat split; now apply div_zero_l.
Qed.

Lemma add_ps_ramp_finite (c d : m128) : finite_ps c -> zero_ps d -> finite_ps (add_ps c d).
Proof.
  intros (A0 & A1 & A2 & A3) (B0 & B1 & B2 & B3). repeat split; now apply add_zero_r_finite.
Qed.

Lemma add_ps_ramp_nonzero (c d : m128) : nonzero_ps c -> zero_ps d -> nonzero_ps (add_ps c d).
Proof.
  intros (A0 & A1 & A2 & A3) (B0 & B1 & B2 & B3).
  repeat split; simpl; now rewrite add_zero_r_is_zero.
Qed.

Lemma lookup_total_Forall (P : m128 -> Prop) (l : list m128) (j : nat) :
  P setzero_ps -> Forall P l -> P (l !!! j).
Proof.
  intros H0 Hl. rewrite list_lookup_total_alt.
  destruct (l !! j) as [v|] eqn:E; [|exact H0].
  exact (proj1 (Forall_lookup P l) Hl j v E).
Qed.

Lemma lookup_total_zero (l : list m128) (j : nat) : Forall zero_ps l -> zero_ps (l !!! j).
Proof. apply lookup_total_Forall, setzero_zero_ps. Qed.

Lemma lookup_total_finite (l : list m128) (j : nat) : Forall finite_ps l -> finite_ps (l !!! j).
Proof. apply lookup_total_Forall, zero_finite_ps, setzero_zero_ps. Qed.

Lemma insert_zero (l : list m128) (j : nat) (v : m128) :
  Forall zero_ps l -> zero_ps v -> Forall zero_ps (<[j := v]> l).
Proof. intros Hl Hv. now apply Forall_insert. Qed.

Lemma zip_with_ramp_finite (c d : list m128) :
  Forall finite_ps c -> Forall zero_ps d -> Forall finite_ps (zip_with add_ps c d).
Proof.
  intros Hc. revert d. induction Hc as [|x c Hx _ IH]; intros d Hd; [constructor|].
  destruct Hd as [|y d Hy Hd]; [constructor|].
  simpl. constructor; [now apply add_ps_ramp_finite|now apply IH].
Qed.

Section Silence.
Context {fm : FastMath}.
Hypothesis Hzero : zero_at_zero fm.

Lemma fasttanh_zero (a : m128) : zero_ps a -> zero_ps (fasttanhSSEclamped a).
Proof. intros (A0 & A1 & A2 & A3). repeat split; now apply (proj1 Hzero). Qed.

Lemma softclip_zero (a : m128) : zero_ps a -> zero_ps (softclip_ps a).
Proof. intros (A0 & A1 & A2 & A3). repeat split; now apply (proj2 Hzero). Qed.

(** Zero-ness, one constructor of the expression at a time; every product
    of the two headers has a coefficient on one side. *)
Ltac silence :=
  repeat first
    [ assumption
    | apply add_ps_zero | apply sub_ps_zero_zero
    | apply fasttanh_zero | apply softclip_zero
    | apply lookup_total_zero | apply insert_zero
    | apply lookup_total_finite
    | match goal with
      | |- zero_ps (mul_ps (C _ !!! _) _) => apply mul_ps_coef_l
      | |- zero_ps (mul_ps _ (C _ !!! _)) => apply mul_ps_coef_r
      | |- zero_ps (div_ps _ (C _ !!! _)) => apply div_ps_zero
      end ].

Lemma lp_recurrence_silent (f : QuadFilterUnitState) (x : m128) :
  silent_k35 f -> zero_ps x ->
  zero_ps (K35Filter.lp_recurrence f x).1 /\
  Forall zero_ps (R (K35Filter.lp_recurrence f x).2).
Proof.
  intros ((Hwf & Hc & Hd & Hr) & Hk) Hx.
  unfold K35Filter.lp_recurrence, K35Filter.doHpf, K35Filter.doLpf, set_R.
  cbn [fst snd C dC R]. split; silence.
Qed.

Lemma hp_recurrence_silent (f : QuadFilterUnitState) (x : m128) :
  silent_k35 f -> zero_ps x ->
  zero_ps (K35Filter.hp_recurrence f x).1 /\
  Forall zero_ps (R (K35Filter.hp_recurrence f x).2).
Proof.
  intros ((Hwf & Hc & Hd & Hr) & Hk) Hx.
  unfold K35Filter.hp_recurrence, K35Filter.doHpf, K35Filter.doLpf, set_R.
  cbn [fst snd C dC R]. split; silence.
Qed.

Lemma processCoeffs_silent (f : QuadFilterUnitState) :
  silent_k35 f -> silent_k35 (K35Filter.processCoeffs f).
Proof.
  intros ((Hwf & Hc & Hd & Hr) & Hk).
  pose proof (advance_loop_wf n_cm_coeffs f Hwf) as Hwf'.
  rewrite processCoeffs_wf in * by exact Hwf. cbn [C dC R] in *.
  destruct Hwf as (Lc & Ld & _).
  split; [split; [exact Hwf'|split; [|split]]|]; cbn [C dC R].
  - now apply zip_with_ramp_finite.
  - exact Hd.
  - exact Hr.
  - rewrite lookup_total_zip_with_add
      by (rewrite ?Lc, ?Ld; unfold K35Filter.k35_k, n_cm_coeffs; lia).
    apply add_ps_ramp_nonzero; [exact Hk|now apply lookup_total_zero].
Qed.

Lemma process_lp_silent (f : QuadFilterUnitState) (x : m128) :
  silent_k35 f -> zero_ps x ->
  zero_ps (K35Filter.process_lp f x).1 /\ silent_k35 (K35Filter.process_lp f x).2.
Proof.
  intros Hs Hx. apply processCoeffs_silent in Hs. unfold K35Filter.process_lp.
  destruct (lp_recurrence_silent _ x Hs Hx) as [Ho Hr].
  split; [exact Ho|].
  destruct Hs as ((Hwf & Hc & Hd & _) & Hk).
  destruct (lp_recurrence_C (K35Filter.processCoeffs f) x) as [Ec Ed].
  unfold silent_k35, silent, wf_state.
  rewrite Ec, Ed, lp_recurrence_R_length. auto.
Qed.

Lemma process_hp_silent (f : QuadFilterUnitState) (x : m128) :
  silent_k35 f -> zero_ps x ->
  zero_ps (K35Filter.process_hp f x).1 /\ silent_k35 (K35Filter.process_hp f x).2.
Proof.
  intros Hs Hx. apply processCoeffs_silent in Hs. unfold K35Filter.process_hp.
  destruct (hp_recurrence_silent _ x Hs Hx) as [Ho Hr].
  split; [exact Ho|].
  destruct Hs as ((Hwf & Hc & Hd & _) & Hk).
  destruct (hp_recurrence_C (K35Filter.processCoeffs f) x) as [Ec Ed].
  unfold silent_k35, silent, wf_state.
  rewrite Ec, Ed, hp_recurrence_R_length. auto.
Qed.

Lemma stage_step_silent (sat : Z) (acc : m128 * QuadFilterUnitState) (s : nat) :
  zero_ps acc.1 -> silent acc.2 ->
  zero_ps (ResonanceWarp.stage_step sat acc s).1 /\
  silent (ResonanceWarp.stage_step sat acc s).2.
Proof.
  destruct acc as [x f]. cbn [fst snd]. intros Hx ((Lc & Ld & Lr) & Hc & Hd & Hr).
  unfold silent, wf_state, ResonanceWarp.stage_step, ResonanceWarp.doNLFilter, set_R.
  destruct (sat =? ResonanceWarp.SAT_TANH); cbn [fst snd C dC R];
    rewrite !length_insert; repeat split; try assumption; silence.
Qed.

Lemma stages_fold_silent (sat : Z) (l : list nat) (acc : m128 * QuadFilterUnitState) :
  zero_ps acc.1 -> silent acc.2 ->
  zero_ps (foldl (ResonanceWarp.stage_step sat) acc l).1 /\
  silent (foldl (ResonanceWarp.stage_step sat) acc l).2.
Proof.
  revert acc. induction l as [|s l IH]; intros acc Hx Hf; [now split|].
  cbn [foldl]. destruct (stage_step_silent sat acc s Hx Hf) as [Hx' Hf'].
  now apply IH.
Qed.

Lemma process_silent (subtype : Z) (f : QuadFilterUnitState) (x : m128) :
  silent f -> zero_ps x ->
  zero_ps (ResonanceWarp.process subtype f x).1 /\
  silent (ResonanceWarp.process subtype f x).2.
Proof.
  intros Hs Hx.
  destruct (process_advances subtype f x (proj1 Hs)) as (Hwf' & Ed' & _).
  unfold ResonanceWarp.process in *.
  pose proof (stages_fold_silent (Z.land (Z.shiftr subtype 2) 3)
                (seq 0 (Z.to_nat (Z.land subtype 3) + 1)) (x, f) Hx Hs) as [Ho Hf].
  fold (ResonanceWarp.run_stages subtype f x) in Ho, Hf.
  destruct (ResonanceWarp.run_stages subtype f x) as [out f']. cbn [fst snd] in *.
  split; [exact Ho|].
  destruct Hf as ((Lc & Ld & Lr) & Hc & Hd & Hr).
  split; [exact Hwf'|].
  rewrite advance_loop_dC, advance_loop_R. repeat split; try assumption.
  rewrite advance_loop_prefix
    by (rewrite ?Lc, ?Ld; unfold ResonanceWarp.n_nls_coeff, n_cm_coeffs; lia).
  apply Forall_app. split.
  - apply zip_with_ramp_finite; now apply Forall_take.
  - now apply Forall_drop.
Qed.

(** Silence is kept over a whole block. *)
Lemma process_block_silent (Inv : QuadFilterUnitState -> Prop) proc
    (inputs : list m128) (f : QuadFilterUnitState) :
  (forall f x, Inv f -> zero_ps x -> zero_ps (proc f x).1 /\ Inv (proc f x).2) ->
  Inv f -> Forall zero_ps inputs ->
  Forall zero_ps (process_block proc f inputs).1 /\ Inv (process_block proc f inputs).2.
Proof.
  intros Hstep Hf Hin. revert f Hf.
  induction Hin as [|x rest Hx _ IH]; intros f Hf; [now split|].
  cbn [process_block]. destruct (Hstep f x Hf Hx) as [Ho Hf1].
  destruct (proc f x) as [y f1]. cbn [fst snd] in *.
  destruct (IH f1 Hf1) as [Hos Hf2].
  destruct (process_block proc f1 rest) as [ys f2]. cbn [fst snd] in *.
  split; [now constructor|exact Hf2].
Qed.

Lemma fresh_unit_silent (N : list f32) (nreg : nat) :
  length N = n_cm_coeffs -> (8 <= nreg)%nat ->
  Forall (fun c => is_finite c = true) N ->
  silent (fresh_unit N nreg).
Proof.
  intros Hlen Hn HN. unfold silent, wf_state, fresh_unit. cbn [C dC R].
  rewrite length_fmap, !length_replicate. repeat split; try assumption.
  - apply Forall_fmap. eapply Forall_impl; [exact HN|]. intros c Hc. repeat split; exact Hc.
  - apply Forall_replicate, setzero_zero_ps.
  - apply Forall_replicate, setzero_zero_ps.
Qed.

End Silence.

Section ZeroInput.
Context {tuning : TuningProvider} {fm : FastMath} {ft : FilterTypes}.

(** C3.  On a freshly loaded and reset unit of either family, whose
    coefficients come from the family's [makeCoefficients] and are finite
    numbers, a block of zero inputs of any length gives zero outputs only
    and leaves all registers zero.  (The saturators are taken to map zero
    to zero.) *)
Theorem zero_input_zero_output (freq reso : f32) (is_lowpass : bool) (type : Z)
    (saturation sampleRate sampleRateInv : f32) (subtype : Z) (nreg : nat)
    (inputs : list m128) :
  let N35 := K35Filter.makeCoefficients freq reso is_lowpass saturation sampleRate
                                         sampleRateInv in
  let Nrw := ResonanceWarp.makeCoefficients freq reso type sampleRate in
  zero_at_zero fm ->
  Forall (fun c => is_finite c = true) N35 ->
  Forall (fun c => is_finite c = true) Nrw ->
  (8 <= nreg)%nat ->
  Forall zero_ps inputs ->
  (Forall zero_ps (process_block K35Filter.process_lp (fresh_unit N35 nreg) inputs).1 /\
   Forall zero_ps (R (process_block K35Filter.process_lp (fresh_unit N35 nreg) inputs).2)) /\
  (Forall zero_ps (process_block K35Filter.process_hp (fresh_unit N35 nreg) inputs).1 /\
   Forall zero_ps (R (process_block K35Filter.process_hp (fresh_unit N35 nreg) inputs).2)) /\
  (Forall zero_ps
     (process_block (ResonanceWarp.process subtype) (fresh_unit Nrw nreg) inputs).1 /\
   Forall zero_ps
     (R (process_block (ResonanceWarp.process subtype) (fresh_unit Nrw nreg) inputs).2)).
Proof.
  intros N35 Nrw Hzero H35 Hrw Hn Hin.
  destruct (k35_slots freq reso is_lowpass saturation sampleRate sampleRateInv)
    as (Hlen & Hk & _).
  fold N35 in Hlen, Hk.
  assert (S35 : silent_k35 (fresh_unit N35 nreg)).
  { split; [now apply fresh_unit_silent|].
    unfold fresh_unit. cbn [C].
    rewrite (list_lookup_total_fmap set_ps1 N35)
      by (rewrite Hlen; unfold K35Filter.k35_k, n_cm_coeffs; lia).
    rewrite Hk. repeat split; simpl; now rewrite clamp_k_not_zero. }
  assert (Srw : silent (fresh_unit Nrw nreg)).
  { apply fresh_unit_silent; [apply resonancewarp_length|exact Hn|exact Hrw]. }
  split; [|split].
  - destruct (process_block_silent silent_k35 K35Filter.process_lp inputs _
                (process_lp_silent Hzero) S35 Hin) as [Ho Hs].
    split; [exact Ho|apply Hs].
  - destruct (process_block_silent silent_k35 K35Filter.process_hp inputs _
                (process_hp_silent Hzero) S35 Hin) as [Ho Hs].
    split; [exact Ho|apply Hs].
  - destruct (process_block_silent silent (ResonanceWarp.process subtype) inputs _
                (process_silent Hzero subtype) Srw Hin) as [Ho Hs].
    split; [exact Ho|apply Hs].
Qed.

End ZeroInput.

Lemma fastmath_approx_zero : zero_at_zero Samples.fastmath_approx.
Proof. split; intros [[]| | |] Hx; try discriminate Hx; reflexivity. Qed.

Lemma zero_input_zero_output_witness :
  let inputs := replicate 3 setzero_ps in
  zero_at_zero Samples.fastmath_approx /\
  Forall (fun c => is_finite c = true) scenario_coeffs /\
  Forall (fun c => is_finite c = true) scenario_coeffs_rw /\
  (8 <= 8)%nat /\
  Forall zero_ps inputs /\
  Forall zero_ps
    (process_block (K35Filter.process_lp (fm := Samples.fastmath_approx))
       scenario_unit inputs).1.
Proof.
  intros inputs.
  assert (H35 : Forall (fun c => is_finite c = true) scenario_coeffs)
    by (vm_compute; repeat constructor).
  assert (Hrw : Forall (fun c => is_finite c = true) scenario_coeffs_rw)
    by (vm_compute; repeat constructor).
  assert (Hn : (8 <= 8)%nat) by lia.
  assert (Hin : Forall zero_ps inputs) by (repeat constructor).
  split; [exact fastmath_approx_zero|]. split; [exact H35|]. split; [exact Hrw|].
  split; [exact Hn|]. split; [exact Hin|].
  exact (proj1 (proj1 (zero_input_zero_output (tuning := Samples.tuning_60Hz)
                         (fm := Samples.fastmath_approx) (ft := Samples.filter_types)
                         c0 c0_5 true 0 c0 (of_Z 48000) (of_ratio 1 48000) 0 8 inputs
                         fastmath_approx_zero H35 Hrw Hn Hin))).
Defined.

(** * Further properties *)


Section LaneSymmetry.
Context {fm : FastMath}.
Variables i j : lane.

Lemma lift2_lane_rel (op : f32 -> f32 -> f32) (a a' b b' : m128) :
  lane_rel i j a a' -> lane_rel i j b b' -> lane_rel i j (lift2 op a b) (lift2 op a' b').
Proof. unfold lane_rel. destruct i, j; simpl; congruence. Qed.

Lemma lift1_lane_rel (op : f32 -> f32) (a a' : m128) :
  lane_rel i j a a' -> lane_rel i j (lift1 op a) (lift1 op a').
Proof. unfold lane_rel. destruct i, j; simpl; congruence. Qed.

Lemma lookup_total_lane_rel (l k : list m128) (n : nat) :
  Forall2 (lane_rel i j) l k -> lane_rel i j (l !!! n) (k !!! n).
Proof.
  intros Hlk. revert n. induction Hlk as [|a b l k Hab _ IH]; intros n.
  - unfold lane_rel. now destruct i, j.
  - destruct n as [|n]; [exact Hab|apply IH].
Qed.

Ltac lane_rels :=
  repeat first
    [ assumption
    | apply (lift2_lane_rel add) | apply (lift2_lane_rel sub)
    | apply (lift2_lane_rel mul) | apply (lift2_lane_rel div)
    | apply (lift1_lane_rel fasttanh_lane) | apply (lift1_lane_rel softclip_lane)
    | apply lookup_total_lane_rel | apply Forall2_insert ].

Lemma advance_loop_lane_rel (n : nat) (f g : QuadFilterUnitState) :
  state_lane_rel i j f g -> state_lane_rel i j (advance_loop n f) (advance_loop n g).
Proof.
  intros Hfg. induction n as [|n IH]; [exact Hfg|].
  rewrite !advance_loop_S. destruct IH as (Hc & Hd & Hr).
  unfold state_lane_rel, set_C; cbn [C dC R]. repeat split; lane_rels.
Qed.

Lemma lp_recurrence_lane_rel (f g : QuadFilterUnitState) (x y : m128) :
  state_lane_rel i j f g -> lane_rel i j x y ->
  lane_rel i j (K35Filter.lp_recurrence f x).1 (K35Filter.lp_recurrence g y).1 /\
  state_lane_rel i j (K35Filter.lp_recurrence f x).2 (K35Filter.lp_recurrence g y).2.
Proof.
  intros (Hc & Hd & Hr) Hxy.
  unfold state_lane_rel, K35Filter.lp_recurrence, K35Filter.doHpf, K35Filter.doLpf, set_R.
  cbn [fst snd C dC R].
  unfold add_ps, sub_ps, mul_ps, div_ps, fasttanhSSEclamped, softclip_ps.
  repeat split; lane_rels.
Qed.

Lemma hp_recurrence_lane_rel (f g : QuadFilterUnitState) (x y : m128) :
  state_lane_rel i j f g -> lane_rel i j x y ->
  lane_rel i j (K35Filter.hp_recurrence f x).1 (K35Filter.hp_recurrence g y).1 /\
  state_lane_rel i j (K35Filter.hp_recurrence f x).2 (K35Filter.hp_recurrence g y).2.
Proof.
  intros (Hc & Hd & Hr) Hxy.
  unfold state_lane_rel, K35Filter.hp_recurrence, K35Filter.doHpf, K35Filter.doLpf, set_R.
  cbn [fst snd C dC R].
  unfold add_ps, sub_ps, mul_ps, div_ps, fasttanhSSEclamped, softclip_ps.
  repeat split; lane_rels.
Qed.

Lemma stage_step_lane_rel (sat : Z) (acc acc' : m128 * QuadFilterUnitState) (s : nat) :
  lane_rel i j acc.1 acc'.1 -> state_lane_rel i j acc.2 acc'.2 ->
  lane_rel i j (ResonanceWarp.stage_step sat acc s).1 (ResonanceWarp.stage_step sat acc' s).1 /\
  state_lane_rel i j (ResonanceWarp.stage_step sat acc s).2
                     (ResonanceWarp.stage_step sat acc' s).2.
Proof.
  destruct acc as [x f], acc' as [y g]. cbn [fst snd]. intros Hxy (Hc & Hd & Hr).
  unfold state_lane_rel, ResonanceWarp.stage_step, ResonanceWarp.doNLFilter, set_R.
  destruct (sat =? ResonanceWarp.SAT_TANH); cbn [fst snd C dC R];
    unfold add_ps, sub_ps, mul_ps, div_ps, fasttanhSSEclamped, softclip_ps;
    repeat split; lane_rels.
Qed.

Lemma stages_fold_lane_rel (sat : Z) (l : list nat) (acc acc' : m128 * QuadFilterUnitState) :
  lane_rel i j acc.1 acc'.1 -> state_lane_rel i j acc.2 acc'.2 ->
  lane_rel i j (foldl (ResonanceWarp.stage_step sat) acc l).1
               (foldl (ResonanceWarp.stage_step sat) acc' l).1 /\
  state_lane_rel i j (foldl (ResonanceWarp.stage_step sat) acc l).2
                     (foldl (ResonanceWarp.stage_step sat) acc' l).2.
Proof.
  revert acc acc'. induction l as [|s l IH]; intros acc acc' Hx Hf; [now split|].
  cbn [foldl]. destruct (stage_step_lane_rel sat acc acc' s Hx Hf) as [Hx' Hf'].
  now apply IH.
Qed.

(** X1.  The four lanes run the same filter: when lane [i] of one call holds,
    in input, registers, coefficients and deltas, what lane [j] of another call
    holds, lane [i] of the first result is lane [j] of the second. *)
Theorem lanes_run_the_same_filter (subtype : Z) (f g : QuadFilterUnitState) (x y : m128) :
  state_lane_rel i j f g -> lane_rel i j x y ->
  (lane_rel i j (K35Filter.process_lp f x).1 (K35Filter.process_lp g y).1 /\
   state_lane_rel i j (K35Filter.process_lp f x).2 (K35Filter.process_lp g y).2) /\
  (lane_rel i j (K35Filter.process_hp f x).1 (K35Filter.process_hp g y).1 /\
   state_lane_rel i j (K35Filter.process_hp f x).2 (K35Filter.process_hp g y).2) /\
  (lane_rel i j (ResonanceWarp.process subtype f x).1 (ResonanceWarp.process subtype g y).1 /\
   state_lane_rel i j (ResonanceWarp.process subtype f x).2
                      (ResonanceWarp.process subtype g y).2).
Proof.
  intros Hfg Hxy. split; [|split].
  - apply lp_recurrence_lane_rel; [now apply advance_loop_lane_rel|exact Hxy].
  - apply hp_recurrence_lane_rel; [now apply advance_loop_lane_rel|exact Hxy].
  - unfold ResonanceWarp.process, ResonanceWarp.run_stages.
    pose proof (stages_fold_lane_rel (Z.land (Z.shiftr subtype 2) 3)
                  (seq 0 (Z.to_nat (Z.land subtype 3) + 1)) (x, f) (y, g) Hxy Hfg)
      as [Ho Hs].
    do 2 destruct (foldl _ _ _) as [? ?]. cbn [fst snd] in *.
    split; [exact Ho|now apply advance_loop_lane_rel].
Qed.

End LaneSymmetry.

Lemma lanes_run_the_same_filter_witness :
  let f := scenario_unit in
  let x := M128 c1 c2 c0 c5 in
  let y := M128 c5 c0 c1 c2 in
  state_lane_rel L0 L2 f f /\ lane_rel L0 L2 x y /\
  lane_rel L0 L2 (K35Filter.process_lp (fm := Samples.fastmath_approx) f x).1
                 (K35Filter.process_lp (fm := Samples.fastmath_approx) f y).1.
Proof.
  intros f x y.
  assert (Hff : state_lane_rel L0 L2 f f) by (repeat split; vm_compute; repeat constructor).
  assert (Hxy : lane_rel L0 L2 x y) by reflexivity.
  split; [exact Hff|]. split; [exact Hxy|].
  exact (proj1 (proj1 (lanes_run_the_same_filter (fm := Samples.fastmath_approx) L0 L2 0
                         f f x y Hff Hxy))).
Defined.


Lemma add_pzero_idem (x : f32) : add (add x pzero) pzero = add x pzero.
Proof. destruct x as [[]|[]| |[] m e]; reflexivity. Qed.

Lemma add_pzero_id (x : f32) : not_neg_zero x = true -> add x pzero = x.
Proof. destruct x as [[]|[]| |[] m e]; try reflexivity; discriminate. Qed.

Lemma add_ps_zero_idem (c : m128) :
  add_ps (add_ps c setzero_ps) setzero_ps = add_ps c setzero_ps.
Proof. destruct c. unfold add_ps, lift2, setzero_ps, set_ps1. simpl. now rewrite !add_pzero_idem. Qed.

Lemma add_ps_zero_id (c : m128) : all_lanes not_neg_zero c -> add_ps c setzero_ps = c.
Proof.
  destruct c. intros (H0 & H1 & H2 & H3). simpl in *.
  unfold add_ps, lift2, setzero_ps, set_ps1. simpl. now rewrite !add_pzero_id.
Qed.

Lemma iter_add_zero (n : nat) (c : m128) :
  n <> 0%nat -> Nat.iter n (fun c => add_ps c setzero_ps) c = add_ps c setzero_ps.
Proof.
  induction n as [|n IH]; [congruence|]. intros _. simpl.
  destruct n as [|n]; [reflexivity|].
  rewrite IH by congruence. apply add_ps_zero_idem.
Qed.

Section Steady.
Context {fm : FastMath}.

(** X2.  Without a ramp the coefficients hold: in a slot whose delta is +0,
    after any number (at least one) of calls the coefficient is [C[i] + 0],
    which is [C[i]] itself unless a lane of it is the negative zero (that lane
    becomes +0 at the first call). *)
Theorem zero_delta_holds_coefficient (f : QuadFilterUnitState) (inputs : list m128)
    (subtype : Z) (i : nat) :
  wf_state f -> dC f !!! i = setzero_ps -> inputs <> [] ->
  let held := add_ps (C f !!! i) setzero_ps in
  ((i < 8)%nat ->
     C (process_block K35Filter.process_lp f inputs).2 !!! i = held /\
     C (process_block K35Filter.process_hp f inputs).2 !!! i = held) /\
  ((i < 5)%nat ->
     C (process_block (ResonanceWarp.process subtype) f inputs).2 !!! i = held) /\
  (all_lanes not_neg_zero (C f !!! i) -> held = C f !!! i).
Proof.
  intros Hwf Hd Hne held.
  assert (Hn : length inputs <> 0%nat) by (destruct inputs; simpl; congruence).
  pose proof (process_block_ramp _ _ inputs f i process_lp_advances Hwf) as Hlp.
  pose proof (process_block_ramp _ _ inputs f i process_hp_advances Hwf) as Hhp.
  pose proof (process_block_ramp _ _ inputs f i (process_advances subtype) Hwf) as Hrw.
  rewrite Hd, iter_add_zero in Hlp, Hhp, Hrw by exact Hn.
  unfold n_cm_coeffs, ResonanceWarp.n_nls_coeff in *.
  split; [|split].
  - intros Hi. apply Nat.ltb_lt in Hi. rewrite Hi in Hlp, Hhp. now split.
  - intros Hi. apply Nat.ltb_lt in Hi. now rewrite Hi in Hrw.
  - apply add_ps_zero_id.
Qed.

End Steady.

Lemma zero_delta_holds_coefficient_witness :
  let f := scenario_unit in
  let inputs := [set_ps1 c1; set_ps1 c2] in
  wf_state f /\ dC f !!! 3%nat = setzero_ps /\ inputs <> [] /\
  all_lanes not_neg_zero (C f !!! 3%nat) /\
  C (process_block (K35Filter.process_lp (fm := Samples.fastmath_approx)) f inputs).2
    !!! 3%nat = C f !!! 3%nat.
Proof.
  intros f inputs.
  assert (Hwf : wf_state f) by (repeat split; simpl; lia).
  assert (Hd : dC f !!! 3%nat = setzero_ps) by reflexivity.
  assert (Hne : inputs <> []) by discriminate.
  assert (Hnz : all_lanes not_neg_zero (C f !!! 3%nat)) by (repeat split).
  split; [exact Hwf|]. split; [exact Hd|]. split; [exact Hne|]. split; [exact Hnz|].
  destruct (zero_delta_holds_coefficient (fm := Samples.fastmath_approx) f inputs 0 3%nat
              Hwf Hd Hne) as (H8 & _ & Hid).
  rewrite <- (Hid Hnz). exact (proj1 (H8 ltac:(lia))).
Defined.

Section K35Frame.
Context {fm : FastMath}.

Lemma lp_recurrence_reads (c d r r' : list m128) (x : m128) :
  take 3 r = take 3 r' ->
  (K35Filter.lp_recurrence (QFU c d r) x).1 = (K35Filter.lp_recurrence (QFU c d r') x).1 /\
  take 3 (R (K35Filter.lp_recurrence (QFU c d r) x).2) =
  take 3 (R (K35Filter.lp_recurrence (QFU c d r') x).2).
Proof.
  intros Ht.
  pose proof (take_lookup_total 3 0 r r' ltac:(lia) Ht) as H0.
  pose proof (take_lookup_total 3 1 r r' ltac:(lia) Ht) as H1.
  pose proof (take_lookup_total 3 2 r r' ltac:(lia) Ht) as H2.
  unfold K35Filter.lp_recurrence, K35Filter.doHpf, K35Filter.doLpf, set_R,
    K35Filter.k35_lz, K35Filter.k35_hz, K35Filter.k35_2z.
  cbn [fst snd C dC R].
  rewrite !list_lookup_total_insert_ne by lia.
  rewrite H0, H1, H2. split; [reflexivity|].
  rewrite !take_insert_lt by lia. now rewrite Ht.
Qed.

Lemma hp_recurrence_reads (c d r r' : list m128) (x : m128) :
  take 3 r = take 3 r' ->
  (K35Filter.hp_recurrence (QFU c d r) x).1 = (K35Filter.hp_recurrence (QFU c d r') x).1 /\
  take 3 (R (K35Filter.hp_recurrence (QFU c d r) x).2) =
  take 3 (R (K35Filter.hp_recurrence (QFU c d r') x).2).
Proof.
  intros Ht.
  pose proof (take_lookup_total 3 0 r r' ltac:(lia) Ht) as H0.
  pose proof (take_lookup_total 3 1 r r' ltac:(lia) Ht) as H1.
  pose proof (take_lookup_total 3 2 r r' ltac:(lia) Ht) as H2.
  unfold K35Filter.hp_recurrence, K35Filter.doHpf, K35Filter.doLpf, set_R,
    K35Filter.k35_lz, K35Filter.k35_hz, K35Filter.k35_2z.
  cbn [fst snd C dC R].
  rewrite !list_lookup_total_insert_ne by lia.
  rewrite H0, H1, H2. split; [reflexivity|].
  rewrite !take_insert_lt by lia. now rewrite Ht.
Qed.

Lemma lp_recurrence_frame (f : QuadFilterUnitState) (x : m128) (j : nat) :
  (3 <= j)%nat -> R (K35Filter.lp_recurrence f x).2 !! j = R f !! j.
Proof.
  intros Hj.
  unfold K35Filter.lp_recurrence, K35Filter.doHpf, K35Filter.doLpf, set_R,
    K35Filter.k35_lz, K35Filter.k35_hz, K35Filter.k35_2z.
  cbn [fst snd C dC R]. now rewrite !list_lookup_insert_ne by lia.
Qed.

Lemma hp_recurrence_frame (f : QuadFilterUnitState) (x : m128) (j : nat) :
  (3 <= j)%nat -> R (K35Filter.hp_recurrence f x).2 !! j = R f !! j.
Proof.
  intros Hj.
  unfold K35Filter.hp_recurrence, K35Filter.doHpf, K35Filter.doLpf, set_R,
    K35Filter.k35_lz, K35Filter.k35_hz, K35Filter.k35_2z.
  cbn [fst snd C dC R]. now rewrite !list_lookup_insert_ne by lia.
Qed.

(** X3.  A K35 call works on the registers [lz], [hz] and [2z] only: every
    register of index 3 or more is left as it was, and output, coefficients
    and the three registers after the call are the same for two states that
    agree on coefficients, deltas and the first three registers. *)
Theorem k35_uses_three_registers (f g : QuadFilterUnitState) (x : m128) (j : nat) :
  wf_state f -> wf_state g ->
  ((3 <= j)%nat ->
     R (K35Filter.process_lp f x).2 !! j = R f !! j /\
     R (K35Filter.process_hp f x).2 !! j = R f !! j) /\
  (C g = C f -> dC g = dC f -> take 3 (R g) = take 3 (R f) ->
     ((K35Filter.process_lp g x).1 = (K35Filter.process_lp f x).1 /\
      C (K35Filter.process_lp g x).2 = C (K35Filter.process_lp f x).2 /\
      take 3 (R (K35Filter.process_lp g x).2) = take 3 (R (K35Filter.process_lp f x).2)) /\
     ((K35Filter.process_hp g x).1 = (K35Filter.process_hp f x).1 /\
      C (K35Filter.process_hp g x).2 = C (K35Filter.process_hp f x).2 /\
      take 3 (R (K35Filter.process_hp g x).2) = take 3 (R (K35Filter.process_hp f x).2))).
Proof.
  intros Hf Hg. unfold K35Filter.process_lp, K35Filter.process_hp.
  rewrite (processCoeffs_wf f Hf), (processCoeffs_wf g Hg). split.
  - intros Hj. split; [now rewrite lp_recurrence_frame|now rewrite hp_recurrence_frame].
  - intros -> -> Ht.
    destruct (lp_recurrence_reads (zip_with add_ps (C f) (dC f)) (dC f) (R g) (R f) x Ht)
      as [Hlo Hlr].
    destruct (hp_recurrence_reads (zip_with add_ps (C f) (dC f)) (dC f) (R g) (R f) x Ht)
      as [Hho Hhr].
    repeat split; assumption.
Qed.

End K35Frame.

Lemma k35_uses_three_registers_witness :
  let f := scenario_unit in
  let g := QFU (C f) (dC f) (replicate 3 setzero_ps ++ replicate 5 (set_ps1 c5)) in
  wf_state f /\ wf_state g /\ C g = C f /\ dC g = dC f /\ take 3 (R g) = take 3 (R f) /\
  (K35Filter.process_lp (fm := Samples.fastmath_approx) g (set_ps1 c1)).1 =
  (K35Filter.process_lp (fm := Samples.fastmath_approx) f (set_ps1 c1)).1.
Proof.
  intros f g.
  assert (Hf : wf_state f) by (repeat split; simpl; lia).
  assert (Hg : wf_state g) by (repeat split; simpl; lia).
  assert (Ht : take 3 (R g) = take 3 (R f)) by reflexivity.
  split; [exact Hf|]. split; [exact Hg|]. split; [reflexivity|]. split; [reflexivity|].
  split; [exact Ht|].
  exact (proj1 (proj1 (proj2 (k35_uses_three_registers (fm := Samples.fastmath_approx)
                                f g (set_ps1 c1) 3 Hf Hg) eq_refl eq_refl Ht))).
Defined.

Section FeedForward.
Context {fm : FastMath}.

(** Stages from [i] on leave the registers below [2 i] alone. *)
Lemma cascade_frame_below (a1 a2 b0 b1 b2 : m128) (sat : m128 -> m128) (n i : nat)
    (input : m128) (regs : list m128) (j : nat) :
  (j < 2 * i)%nat ->
  (CascadeSpec.cascade a1 a2 b0 b1 b2 sat n i input regs).2 !! j = regs !! j.
Proof.
  revert i input regs. induction n as [|n IH]; intros i input regs Hj; [reflexivity|].
  cbn [CascadeSpec.cascade].
  destruct (CascadeSpec.stage _ _ _ _ _ _ _ _ _) as [[out z1] z2].
  rewrite IH by lia. rewrite !list_lookup_insert_ne by lia. reflexivity.
Qed.

(** [n + k] stages are [n] stages followed by [k] more on their output. *)
Lemma cascade_app (a1 a2 b0 b1 b2 : m128) (sat : m128 -> m128) (n k i : nat)
    (input : m128) (regs : list m128) :
  CascadeSpec.cascade a1 a2 b0 b1 b2 sat (n + k) i input regs =
  CascadeSpec.cascade a1 a2 b0 b1 b2 sat k (i + n)
    (CascadeSpec.cascade a1 a2 b0 b1 b2 sat n i input regs).1
    (CascadeSpec.cascade a1 a2 b0 b1 b2 sat n i input regs).2.
Proof.
  revert i input regs. induction n as [|n IH]; intros i input regs.
  - cbn [Nat.add CascadeSpec.cascade fst snd]. now replace (i + 0)%nat with i by lia.
  - cbn [Nat.add CascadeSpec.cascade].
    destruct (CascadeSpec.stage _ _ _ _ _ _ _ _ _) as [[out z1] z2].
    rewrite IH. now replace (S i + n)%nat with (i + S n)%nat by lia.
Qed.

Lemma saturator_agree (s1 s2 : Z) :
  (Z.land (Z.shiftr s1 2) 3 =? 0) = (Z.land (Z.shiftr s2 2) 3 =? 0) ->
  CascadeSpec.saturator s1 = CascadeSpec.saturator s2.
Proof.
  rewrite !sat_field_div. unfold CascadeSpec.saturator. now intros ->.
Qed.

(** X4.  The cascade feeds forward only.  Of two calls on the same state and
    input that use the same saturator, the one with more stages leaves in the
    registers of the shorter one exactly what the shorter one leaves, and the
    same coefficients; its extra stages start from the shorter one's output. *)
Theorem later_stages_do_not_feed_back (s1 s2 : Z) (f : QuadFilterUnitState) (x : m128) :
  let N1 := (Z.to_nat (Z.land s1 3) + 1)%nat in
  let N2 := (Z.to_nat (Z.land s2 3) + 1)%nat in
  let sat := Z.land (Z.shiftr s2 2) 3 in
  (Z.land (Z.shiftr s1 2) 3 =? 0) = (sat =? 0) ->
  (N1 <= N2)%nat ->
  take (2 * N1) (R (ResonanceWarp.process s2 f x).2) =
  take (2 * N1) (R (ResonanceWarp.process s1 f x).2) /\
  C (ResonanceWarp.process s2 f x).2 = C (ResonanceWarp.process s1 f x).2 /\
  ResonanceWarp.run_stages s2 f x =
  foldl (ResonanceWarp.stage_step sat) (ResonanceWarp.run_stages s1 f x)
        (seq N1 (N2 - N1)).
Proof.
  intros N1 N2 sat Hsat Hle.
  assert (Hrun : ResonanceWarp.run_stages s2 f x =
                 foldl (ResonanceWarp.stage_step sat) (ResonanceWarp.run_stages s1 f x)
                       (seq N1 (N2 - N1))).
  { unfold ResonanceWarp.run_stages. fold N1 N2 sat.
    replace N2 with (N1 + (N2 - N1))%nat at 1 by lia.
    rewrite seq_app, foldl_app. cbn [Nat.add]. f_equal.
    generalize (seq 0 N1) (x, f). intros l. induction l as [|s l IH]; intros acc.
    - reflexivity.
    - cbn [foldl]. rewrite <- IH. f_equal.
      destruct acc as [y g].
      unfold ResonanceWarp.stage_step, ResonanceWarp.doNLFilter, ResonanceWarp.SAT_TANH.
      rewrite Hsat. reflexivity. }
  split; [|split; [|exact Hrun]].
  - destruct (process_registers s1 f x) as [_ ->].
    destruct (process_registers s2 f x) as [_ ->].
    fold N1 N2. rewrite (saturator_agree s1 s2 Hsat).
    replace N2 with (N1 + (N2 - N1))%nat by lia. rewrite cascade_app.
    apply list_eq. intros j. destruct (decide (j < 2 * N1)%nat) as [Hj|Hj].
    + rewrite !lookup_take_lt by lia. apply cascade_frame_below. lia.
    + rewrite !lookup_take_ge by lia. reflexivity.
  - unfold ResonanceWarp.process.
    destruct (run_stages_C s1 f x) as [Hc1 Hd1].
    destruct (run_stages_C s2 f x) as [Hc2 Hd2].
    destruct (ResonanceWarp.run_stages s1 f x) as [o1 f1].
    destruct (ResonanceWarp.run_stages s2 f x) as [o2 f2].
    cbn [fst snd] in *.
    apply list_eq. intros j.
    now rewrite !advance_loop_lookup, Hc1, Hc2, Hd1, Hd2.
Qed.

(** What the active registers hold after a call went through the saturator. *)
Lemma cascade_saturated (a1 a2 b0 b1 b2 : m128) (sat : m128 -> m128) (n i : nat)
    (input : m128) (regs : list m128) (j : nat) :
  (2 * i <= j < 2 * (i + n))%nat -> (j < length regs)%nat ->
  exists v, (CascadeSpec.cascade a1 a2 b0 b1 b2 sat n i input regs).2 !! j = Some (sat v).
Proof.
  revert i input regs. induction n as [|n IH]; intros i input regs Hj Hlen; [lia|].
  cbn [CascadeSpec.cascade]. unfold CascadeSpec.stage.
  destruct (decide (2 * S i <= j)%nat) as [Hge|Hlt].
  - apply IH; [lia|now rewrite !length_insert].
  - rewrite cascade_frame_below by lia.
    destruct (decide (j = 2 * i + 1)%nat) as [->|Hne].
    + eexists. apply list_lookup_insert_eq. now rewrite length_insert.
    + assert (j = 2 * i)%nat as -> by lia.
      rewrite list_lookup_insert_ne by lia.
      eexists. now apply list_lookup_insert_eq.
Qed.

(** X5.  After a call every active register is a saturator output: whatever
    holds of every value the two saturators return holds of every lane of the
    first [2 N] registers. *)
Theorem active_registers_are_saturated (P : f32 -> Prop) (subtype : Z)
    (f : QuadFilterUnitState) (x : m128) (j : nat) (l : lane) :
  (forall v, P (fasttanh_lane v)) -> (forall v, P (softclip_lane v)) ->
  (j < 2 * (Z.to_nat (Z.land subtype 3) + 1))%nat -> (j < length (R f))%nat ->
  P (get_lane l (R (ResonanceWarp.process subtype f x).2 !!! j)).
Proof.
  intros Ht Hs Hj Hlen.
  destruct (process_registers subtype f x) as [_ ->].
  destruct (cascade_saturated (C f !!! ResonanceWarp.nls_a1) (C f !!! ResonanceWarp.nls_a2)
              (C f !!! ResonanceWarp.nls_b0) (C f !!! ResonanceWarp.nls_b1)
              (C f !!! ResonanceWarp.nls_b2) (CascadeSpec.saturator subtype)
              (Z.to_nat (Z.land subtype 3) + 1) 0 x (R f) j ltac:(lia) Hlen) as [v Hv].
  rewrite (list_lookup_total_correct _ _ _ Hv).
  unfold CascadeSpec.saturator, fasttanhSSEclamped, softclip_ps.
  destruct ((subtype / 4) mod 4 =? 0); destruct l; simpl; auto.
Qed.

(** X7.  Only the four low bits of the subtype count, and the saturator
    fields 1, 2 and 3 all select the soft clipper: two subtypes with the same
    two low bits whose saturator fields are both zero or both non-zero give
    the same call. *)
Theorem subtype_low_bits_decide (s1 s2 : Z) (f : QuadFilterUnitState) (x : m128) :
  s1 mod 4 = s2 mod 4 ->
  ((s1 / 4) mod 4 =? 0) = ((s2 / 4) mod 4 =? 0) ->
  ResonanceWarp.process s1 f x = ResonanceWarp.process s2 f x /\
  ResonanceWarp.process (s1 + 16) f x = ResonanceWarp.process s1 f x.
Proof.
  assert (Hgen : forall a b, a mod 4 = b mod 4 ->
                   ((a / 4) mod 4 =? 0) = ((b / 4) mod 4 =? 0) ->
                   ResonanceWarp.process a f x = ResonanceWarp.process b f x).
  { intros a b Hst Hsat. unfold ResonanceWarp.process, ResonanceWarp.run_stages.
    rewrite !stages_fold_cascade, !land_3_mod, Hst.
    unfold CascadeSpec.saturator. now rewrite Hsat. }
  intros Hst Hsat. split; [now apply Hgen|].
  apply Hgen.
  - replace (s1 + 16) with (s1 + 4 * 4) by lia. now rewrite Z.mod_add by lia.
  - replace (s1 + 16) with (s1 + 4 * 4) by lia. rewrite Z.div_add by lia.
    replace ((s1 / 4 + 4) mod 4) with ((s1 / 4) mod 4); [reflexivity|].
    replace (s1 / 4 + 4) with (s1 / 4 + 1 * 4) by lia. now rewrite Z.mod_add by lia.
Qed.

End FeedForward.

Lemma le_not_lt (x y : f32) : le x y = true -> lt y x = false.
Proof.
  unfold le, lt, SFleb, SFltb. rewrite (SFcompare_antisym x y).
  destruct (SFcompare x y) as [[]|]; simpl; congruence.
Qed.

Lemma clamp_in_range (v lo hi : f32) :
  le lo v = true -> le v hi = true -> clamp v lo hi = v.
Proof.
  intros H1 H2. unfold clamp. now rewrite (le_not_lt lo v H1), (le_not_lt v hi H2).
Qed.

Lemma clamp_nan (lo hi : f32) : clamp S754_nan lo hi = S754_nan.
Proof. unfold clamp. simpl. now destruct hi. Qed.

Section Edges.
Context {tuning : TuningProvider} {fm : FastMath} {ft : FilterTypes}.

(** X6.  The saturation blend of K35 at its edges: an amount of 1 or more
    (infinity included) and a NaN amount give blend weight 1 and inverse
    weight +0, so the clean path has no weight; an amount below 1 is its own
    blend weight. *)
Theorem k35_saturation_blend_edges (freq reso : f32) (is_lowpass : bool)
    (saturation sampleRate sampleRateInv : f32) :
  let N := K35Filter.makeCoefficients freq reso is_lowpass saturation sampleRate
                                       sampleRateInv in
  (le c1 saturation = true \/ is_nan saturation = true ->
     N !!! K35Filter.k35_saturation_blend = c1 /\
     N !!! K35Filter.k35_saturation_blend_inv = pzero) /\
  (lt saturation c1 = true ->
     N !!! K35Filter.k35_saturation_blend = saturation /\
     N !!! K35Filter.k35_saturation_blend_inv = sub c1 saturation).
Proof.
  intros N.
  destruct (k35_slots freq reso is_lowpass saturation sampleRate sampleRateInv)
    as (_ & _ & _ & Hb & Hi).
  fold N in Hb, Hi. rewrite Hb, Hi. unfold fminf. split.
  - intros [Hle|Hnan].
    + destruct (le_not_nan _ _ Hle) as [_ Hn]. rewrite Hn. cbn [is_nan c1].
      rewrite (le_not_lt _ _ Hle). split; reflexivity.
    + rewrite Hnan. split; reflexivity.
  - intros Hlt. destruct (lt_not_nan _ _ Hlt) as [Hn _]. rewrite Hn, Hlt.
    cbn [is_nan c1]. split; reflexivity.
Qed.

(** X9.  [clampedFrequency] of either header returns a frequency that is
    already within [5, 0.3 sampleRate] unchanged, and returns a NaN frequency
    as the NaN it is. *)
Theorem clamped_frequency_passes (pitch sampleRate : f32) :
  let freq := mul (note_to_pitch_ignoring_tuning (add pitch c69)) MIDI_0_FREQ in
  (le c5 freq = true -> le freq (mul sampleRate c0_3) = true ->
     K35Filter.clampedFrequency pitch sampleRate = freq /\
     ResonanceWarp.clampedFrequency pitch sampleRate = freq) /\
  (is_nan freq = true ->
     is_nan (K35Filter.clampedFrequency pitch sampleRate) = true /\
     is_nan (ResonanceWarp.clampedFrequency pitch sampleRate) = true).
Proof.
  intros freq. unfold K35Filter.clampedFrequency, ResonanceWarp.clampedFrequency.
  fold freq. split.
  - intros H1 H2. split; now apply clamp_in_range.
  - intros Hn. destruct freq; try discriminate Hn. rewrite clamp_nan. split; reflexivity.
Qed.

End Edges.

Lemma k35_saturation_blend_edges_witness :
  le c1 c2 = true /\
  K35Filter.makeCoefficients (tuning := Samples.tuning_60Hz) (fm := Samples.fastmath_approx)
    c0 c0_5 true c2 (of_Z 48000) (of_ratio 1 48000) !!! K35Filter.k35_saturation_blend_inv
  = pzero.
Proof.
  assert (H : le c1 c2 = true) by reflexivity.
  split; [exact H|].
  exact (proj2 (proj1 (k35_saturation_blend_edges (tuning := Samples.tuning_60Hz)
                         (fm := Samples.fastmath_approx)
                         c0 c0_5 true c2 (of_Z 48000) (of_ratio 1 48000)) (or_introl H))).
Defined.

Lemma clamped_frequency_passes_witness :
  let freq := mul (note_to_pitch_ignoring_tuning (TuningProvider := Samples.tuning_60Hz)
                     (add c0 c69))
                  (MIDI_0_FREQ (TuningProvider := Samples.tuning_60Hz)) in
  le c5 freq = true /\ le freq (mul (of_Z 48000) c0_3) = true /\
  K35Filter.clampedFrequency (tuning := Samples.tuning_60Hz) c0 (of_Z 48000) = freq.
Proof.
  intros freq.
  assert (H1 : le c5 freq = true) by reflexivity.
  assert (H2 : le freq (mul (of_Z 48000) c0_3) = true) by reflexivity.
  split; [exact H1|]. split; [exact H2|].
  exact (proj1 (proj1 (clamped_frequency_passes (tuning := Samples.tuning_60Hz)
                         c0 (of_Z 48000)) H1 H2)).
Defined.


Lemma nan_absorbs (x y : f32) :
  is_nan x = true \/ is_nan y = true ->
  is_nan (add x y) = true /\ is_nan (sub x y) = true /\
  is_nan (mul x y) = true /\ is_nan (div x y) = true.
Proof.
  intros [H|H]; [destruct x; try discriminate H|destruct y; try discriminate H];
    [|destruct x]; repeat split; reflexivity.
Qed.

Lemma lookup_total_insert_dec (l : list m128) (i j : nat) (x : m128) :
  (i < length l)%nat -> <[i := x]> l !!! j = if (i =? j)%nat then x else l !!! j.
Proof.
  intros Hi. destruct (i =? j)%nat eqn:E.
  - apply Nat.eqb_eq in E as <-. now apply list_lookup_total_insert_eq.
  - apply Nat.eqb_neq in E. now apply list_lookup_total_insert_ne.
Qed.

Section Poison.
Context {fm : FastMath}.
Variable l : lane.

Lemma add_ps_nan_l (a b : m128) : nan_at l a -> nan_at l (add_ps a b).
Proof. unfold nan_at. destruct l; simpl; intros H; apply nan_absorbs; auto. Qed.
Lemma add_ps_nan_r (a b : m128) : nan_at l b -> nan_at l (add_ps a b).
Proof. unfold nan_at. destruct l; simpl; intros H; apply nan_absorbs; auto. Qed.
Lemma sub_ps_nan_l (a b : m128) : nan_at l a -> nan_at l (sub_ps a b).
Proof. unfold nan_at. destruct l; simpl; intros H; apply nan_absorbs; auto. Qed.
Lemma sub_ps_nan_r (a b : m128) : nan_at l b -> nan_at l (sub_ps a b).
Proof. unfold nan_at. destruct l; simpl; intros H; apply nan_absorbs; auto. Qed.
Lemma mul_ps_nan_l (a b : m128) : nan_at l a -> nan_at l (mul_ps a b).
Proof. unfold nan_at. destruct l; simpl; intros H; apply nan_absorbs; auto. Qed.
Lemma mul_ps_nan_r (a b : m128) : nan_at l b -> nan_at l (mul_ps a b).
Proof. unfold nan_at. destruct l; simpl; intros H; apply nan_absorbs; auto. Qed.
Lemma div_ps_nan_l (a b : m128) : nan_at l a -> nan_at l (div_ps a b).
Proof. unfold nan_at. destruct l; simpl; intros H; apply nan_absorbs; auto. Qed.

(** A NaN operand, searched depth first. *)
Ltac nan_path :=
  first
    [ assumption
    | apply add_ps_nan_l; nan_path | apply add_ps_nan_r; nan_path
    | apply sub_ps_nan_l; nan_path | apply sub_ps_nan_r; nan_path
    | apply mul_ps_nan_l; nan_path | apply mul_ps_nan_r; nan_path
    | apply div_ps_nan_l; nan_path ].

Lemma lp_recurrence_poison (f : QuadFilterUnitState) (x : m128) :
  (3 <= length (R f))%nat -> poisoned l f \/ nan_at l x ->
  nan_at l (K35Filter.lp_recurrence f x).1 /\ poisoned l (K35Filter.lp_recurrence f x).2.
Proof.
  intros Hlen Hp.
  unfold poisoned, K35Filter.lp_recurrence, K35Filter.doHpf, K35Filter.doLpf, set_R,
    K35Filter.k35_lz, K35Filter.k35_hz, K35Filter.k35_2z in *.
  cbn [fst snd C dC R].
  rewrite !lookup_total_insert_dec by (rewrite ?length_insert; lia).
  cbn [Nat.eqb].
  destruct Hp as [[H|[H|H]]|H].
  - split; [nan_path|left; nan_path].
  - split; [nan_path|right; left; nan_path].
  - split; [nan_path|right; right; nan_path].
  - split; [nan_path|left; nan_path].
Qed.

Lemma hp_recurrence_poison (f : QuadFilterUnitState) (x : m128) :
  (3 <= length (R f))%nat -> poisoned l f \/ nan_at l x ->
  nan_at l (K35Filter.hp_recurrence f x).1 /\ poisoned l (K35Filter.hp_recurrence f x).2.
Proof.
  intros Hlen Hp.
  unfold poisoned, K35Filter.hp_recurrence, K35Filter.doHpf, K35Filter.doLpf, set_R,
    K35Filter.k35_lz, K35Filter.k35_hz, K35Filter.k35_2z in *.
  cbn [fst snd C dC R].
  rewrite !lookup_total_insert_dec by (rewrite ?length_insert; lia).
  cbn [Nat.eqb].
  destruct Hp as [[H|[H|H]]|H].
  - split; [nan_path|left; nan_path].
  - split; [nan_path|right; left; nan_path].
  - split; [nan_path|right; right; nan_path].
  - split; [nan_path|right; left; nan_path].
Qed.

Lemma process_lp_poison (f : QuadFilterUnitState) (x : m128) :
  wf_state f -> poisoned l f \/ nan_at l x ->
  nan_at l (K35Filter.process_lp f x).1 /\ poisoned l (K35Filter.process_lp f x).2 /\
  wf_state (K35Filter.process_lp f x).2.
Proof.
  intros Hwf Hp. destruct (process_lp_advances f x Hwf) as (Hwf' & _).
  split; [|split; [|exact Hwf']];
    unfold K35Filter.process_lp, K35Filter.processCoeffs;
    apply lp_recurrence_poison;
    rewrite ?advance_loop_R; try (destruct Hwf as (_ & _ & Hr); lia);
    unfold poisoned in *; now rewrite ?advance_loop_R.
Qed.

Lemma process_hp_poison (f : QuadFilterUnitState) (x : m128) :
  wf_state f -> poisoned l f \/ nan_at l x ->
  nan_at l (K35Filter.process_hp f x).1 /\ poisoned l (K35Filter.process_hp f x).2 /\
  wf_state (K35Filter.process_hp f x).2.
Proof.
  intros Hwf Hp. destruct (process_hp_advances f x Hwf) as (Hwf' & _).
  split; [|split; [|exact Hwf']];
    unfold K35Filter.process_hp, K35Filter.processCoeffs;
    apply hp_recurrence_poison;
    rewrite ?advance_loop_R; try (destruct Hwf as (_ & _ & Hr); lia);
    unfold poisoned in *; now rewrite ?advance_loop_R.
Qed.

Lemma process_block_poison proc (inputs : list m128) (f : QuadFilterUnitState) :
  (forall f x, wf_state f -> poisoned l f \/ nan_at l x ->
     nan_at l (proc f x).1 /\ poisoned l (proc f x).2 /\ wf_state (proc f x).2) ->
  wf_state f -> poisoned l f ->
  Forall (nan_at l) (process_block proc f inputs).1.
Proof.
  intros Hstep. revert f. induction inputs as [|x rest IH]; intros f Hwf Hp.
  - constructor.
  - cbn [process_block]. destruct (Hstep f x Hwf (or_introl Hp)) as (Ho & Hp' & Hwf').
    destruct (proc f x) as [y f1]. cbn [fst snd] in *.
    specialize (IH f1 Hwf' Hp').
    destruct (process_block proc f1 rest) as [ys f2]. cbn [fst snd] in *.
    now constructor.
Qed.

(** X8.  A NaN never leaves a K35 lane.  When an input sample or one of the
    three registers holds a NaN in lane [l], the output of that call is a NaN
    in lane [l], and so is every output of every later call, whatever the
    inputs, the coefficients and the saturator are. *)
Theorem k35_nan_is_sticky (f : QuadFilterUnitState) (x : m128) (rest : list m128) :
  wf_state f -> poisoned l f \/ nan_at l x ->
  Forall (nan_at l) (process_block K35Filter.process_lp f (x :: rest)).1 /\
  Forall (nan_at l) (process_block K35Filter.process_hp f (x :: rest)).1.
Proof.
  intros Hwf Hp. split.
  - cbn [process_block].
    destruct (process_lp_poison f x Hwf Hp) as (Ho & Hp' & Hwf').
    destruct (K35Filter.process_lp f x) as [y f1]. cbn [fst snd] in *.
    pose proof (process_block_poison K35Filter.process_lp rest f1 process_lp_poison Hwf' Hp')
      as Hrest.
    destruct (process_block K35Filter.process_lp f1 rest) as [ys f2]. cbn [fst snd] in *.
    now constructor.
  - cbn [process_block].
    destruct (process_hp_poison f x Hwf Hp) as (Ho & Hp' & Hwf').
    destruct (K35Filter.process_hp f x) as [y f1]. cbn [fst snd] in *.
    pose proof (process_block_poison K35Filter.process_hp rest f1 process_hp_poison Hwf' Hp')
      as Hrest.
    destruct (process_block K35Filter.process_hp f1 rest) as [ys f2]. cbn [fst snd] in *.
    now constructor.
Qed.

Lemma stage_step_nan (sat : Z) (acc : m128 * QuadFilterUnitState) (s : nat) :
  nan_at l acc.1 -> nan_at l (ResonanceWarp.stage_step sat acc s).1.
Proof.
  destruct acc as [x f]. cbn [fst]. intros H.
  unfold ResonanceWarp.stage_step, ResonanceWarp.doNLFilter.
  destruct (sat =? ResonanceWarp.SAT_TANH); cbn [fst]; nan_path.
Qed.

(** X10.  A NaN input lane of a ResonanceWarp call gives a NaN output lane,
    through every stage, for every coefficient set, register content and
    saturator. *)
Theorem resonancewarp_nan_in_nan_out (subtype : Z) (f : QuadFilterUnitState) (x : m128) :
  nan_at l x -> nan_at l (ResonanceWarp.process subtype f x).1.
Proof.
  intros Hx. unfold ResonanceWarp.process, ResonanceWarp.run_stages.
  assert (H : forall ls acc, nan_at l acc.1 ->
                nan_at l (foldl (ResonanceWarp.stage_step (Z.land (Z.shiftr subtype 2) 3))
                            acc ls).1).
  { induction ls as [|s ls IH]; intros acc Ha; [exact Ha|].
    cbn [foldl]. apply IH. now apply stage_step_nan. }
  specialize (H (seq 0 (Z.to_nat (Z.land subtype 3) + 1)) (x, f) Hx).
  destruct (foldl _ _ _) as [out f']. exact H.
Qed.

End Poison.

Section DirectPath.
Context {fm : FastMath}.

(** The output of the cascade is made of the input, [b0] and the first
    register of each stage. *)
Lemma cascade_output (a1 a2 b1 b2 a1' a2' b1' b2' b0 : m128) (sat sat' : m128 -> m128)
    (n i : nat) (input : m128) (regs regs' : list m128) :
  (forall k, (i <= k < i + n)%nat -> regs !!! (2 * k)%nat = regs' !!! (2 * k)%nat) ->
  (CascadeSpec.cascade a1 a2 b0 b1 b2 sat n i input regs).1 =
  (CascadeSpec.cascade a1' a2' b0 b1' b2' sat' n i input regs').1.
Proof.
  revert i input regs regs'. induction n as [|n IH]; intros i input regs regs' Hev.
  - reflexivity.
  - cbn [CascadeSpec.cascade]. unfold CascadeSpec.stage.
    rewrite (Hev i) by lia. apply IH. intros k Hk.
    rewrite !list_lookup_total_insert_ne by lia. apply Hev. lia.
Qed.

(** X11.  The output of a ResonanceWarp call is read off the input, the
    coefficient [b0] and the first register of each active stage: it is the
    same for two calls that agree on these, whatever the other coefficients,
    the second registers and the saturators are, which only shape the
    registers left for the next call. *)
Theorem output_uses_b0_and_first_registers (s1 s2 : Z) (f g : QuadFilterUnitState)
    (x : m128) :
  s1 mod 4 = s2 mod 4 ->
  C f !!! ResonanceWarp.nls_b0 = C g !!! ResonanceWarp.nls_b0 ->
  (forall k, (k < Z.to_nat (s1 mod 4) + 1)%nat ->
     R f !!! (2 * k)%nat = R g !!! (2 * k)%nat) ->
  (ResonanceWarp.process s1 f x).1 = (ResonanceWarp.process s2 g x).1.
Proof.
  intros Hst Hb0 Hev.
  destruct (process_registers s1 f x) as [-> _].
  destruct (process_registers s2 g x) as [-> _].
  rewrite !land_3_mod, <- Hst, Hb0.
  apply cascade_output. intros k Hk. apply Hev. lia.
Qed.

End DirectPath.

Lemma output_uses_b0_and_first_registers_witness :
  let f := fresh_unit scenario_coeffs_rw 8 in
  let g := QFU (<[ResonanceWarp.nls_a1 := set_ps1 c5]> (C f)) (dC f)
               (<[1%nat := set_ps1 c2]> (R f)) in
  1 mod 4 = 5 mod 4 /\
  C f !!! ResonanceWarp.nls_b0 = C g !!! ResonanceWarp.nls_b0 /\
  (forall k, (k < Z.to_nat (1 mod 4) + 1)%nat -> R f !!! (2 * k)%nat = R g !!! (2 * k)%nat) /\
  (ResonanceWarp.process (fm := Samples.fastmath_approx) 1 f (set_ps1 c1)).1 =
  (ResonanceWarp.process (fm := Samples.fastmath_approx) 5 g (set_ps1 c1)).1.
Proof.
  intros f g.
  assert (H1 : 1 mod 4 = 5 mod 4) by reflexivity.
  assert (H2 : C f !!! ResonanceWarp.nls_b0 = C g !!! ResonanceWarp.nls_b0) by reflexivity.
  assert (H3 : forall k, (k < Z.to_nat (1 mod 4) + 1)%nat ->
                 R f !!! (2 * k)%nat = R g !!! (2 * k)%nat).
  { intros k Hk. destruct k as [|[|k]]; [reflexivity|reflexivity|simpl in Hk; lia]. }
  split; [exact H1|]. split; [exact H2|]. split; [exact H3|].
  exact (output_uses_b0_and_first_registers (fm := Samples.fastmath_approx)
           1 5 f g (set_ps1 c1) H1 H2 H3).
Defined.

Section LadderTheorems.
Import LadderFilter LadderProps.
Context {Smoother : Type}.
Variable snap_to_target : Smoother -> Smoother.
Variable saturationLUT : f32 -> f32.

Lemma Mode_eqb_eq (a b : Mode) : Mode_eqb a b = true <-> a = b.
Proof. destruct a, b; simpl; split; congruence. Qed.

Lemma fmap_fill (l : list array5) :
  (fun _ => fill c0) <$> l = replicate (length l) (fill c0).
Proof. induction l as [|x l IH]; [reflexivity|]. simpl. now f_equal. Qed.

(** X12.  [setMode] resets on a change of mode only.  Asked for the mode the
    filter is in, it changes nothing, the stage values included; asked for
    another mode, it leaves every channel with five zero stage values, the
    channel count as it was, and the weights of the mode times 1.2f.  Asking
    twice is asking once. *)
Theorem setMode_resets_on_change (m : Mode) (f : @t Smoother) :
  (m = mode f -> setMode snap_to_target m f = f) /\
  (m <> mode f ->
     state (setMode snap_to_target m f) = replicate (length (state f)) (fill c0) /\
     A (setMode snap_to_target m f) = map5 (fun a => mul a k1_2) (mode_weights m).1 /\
     comp (setMode snap_to_target m f) = (mode_weights m).2) /\
  mode (setMode snap_to_target m f) = m /\
  setMode snap_to_target m (setMode snap_to_target m f) = setMode snap_to_target m f.
Proof.
  assert (Hmode : mode (setMode snap_to_target m f) = m).
  { unfold setMode. destruct (Mode_eqb m (mode f)) eqn:E.
    - now apply Mode_eqb_eq in E.
    - now destruct (mode_weights m). }
  split; [|split; [|split; [exact Hmode|]]].
  - intros ->. unfold setMode. now rewrite (proj2 (Mode_eqb_eq _ _) eq_refl).
  - intros Hne. unfold setMode.
    destruct (Mode_eqb m (mode f)) eqn:E; [now apply Mode_eqb_eq in E|].
    destruct (mode_weights m) as [w k]. cbn. rewrite fmap_fill. auto.
  - unfold setMode at 1. rewrite Hmode. now rewrite (proj2 (Mode_eqb_eq _ _) eq_refl).
Qed.

(** X13.  Channels do not interact, and calls on two channels commute: a call
    on channel [ch2] gives the same output whether or not channel [ch1] was
    processed before, and the two orders leave the same filter. *)
Theorem channels_commute (x y : f32) (ch1 ch2 : nat) (f : @t Smoother) :
  ch1 <> ch2 ->
  let f1 := (processSample saturationLUT x ch1 f).2 in
  let f2 := (processSample saturationLUT y ch2 f).2 in
  (processSample saturationLUT y ch2 f1).1 = (processSample saturationLUT y ch2 f).1 /\
  (processSample saturationLUT x ch1 f2).1 = (processSample saturationLUT x ch1 f).1 /\
  (processSample saturationLUT y ch2 f1).2 = (processSample saturationLUT x ch1 f2).2.
Proof.
  intros Hne f1 f2. subst f1 f2. unfold processSample. cbn [fst snd state A comp mode
    drive drive2 gain gain2 cutoffTransformValue scaledResonanceValue
    cutoffTransformSmoother scaledResonanceSmoother].
  rewrite !list_lookup_total_insert_ne by congruence.
  split; [reflexivity|]. split; [reflexivity|].
  f_equal. apply list_insert_insert_ne. congruence.
Qed.

Lemma zero_finite (x : f32) : is_zero x = true -> is_finite x = true.
Proof. destruct x; simpl; congruence. Qed.

(** X14.  Silence is kept: on a channel whose five stage values are zeros, a
    zero input gives a zero output and leaves five zeros, when the parameters
    are finite and the look-up table maps zero to zero.  [reset] puts every
    existing channel of any filter [g], whatever its stage values were, in
    that state: the five values are zeros and, when the parameters of [g]
    are finite, the channel is silent in the sense above. *)
Theorem ladder_silence (x : f32) (ch : nat) (f g : @t Smoother) :
  ((forall v, is_zero v = true -> is_zero (saturationLUT v) = true) ->
   quiet ch f -> is_zero x = true ->
   is_zero (processSample saturationLUT x ch f).1 = true /\
   quiet ch (processSample saturationLUT x ch f).2) /\
  ((ch < length (state g))%nat ->
   all5 is_zero (state (reset snap_to_target g) !!! ch) /\
   (finite_params g -> quiet ch (reset snap_to_target g))).
Proof.
  split; cycle 1.
  { intros Hg.
    assert (Hz : all5 is_zero (state (reset snap_to_target g) !!! ch)).
    { unfold reset. cbn [state]. rewrite fmap_fill.
      rewrite lookup_total_replicate_2 by exact Hg. repeat split. }
    split; [exact Hz|]. intros Hfin. split; [|split; [exact Hz|exact Hfin]].
    unfold reset. cbn [state]. now rewrite length_fmap. }
  intros Hlut (Hch & (Z0 & Z1 & Z2 & Z3 & Z4) & Hfin) Hx.
  pose proof Hfin as (Fa1 & Fb0 & Fb1 & Fres & Fd & Fd2 & Fg & Fg2 & Fc & FA0 & FA1 & FA2 & FA3 & FA4).
  cbv zeta in Fb0, Fb1.
  unfold processSample. cbn [fst snd state A comp mode drive drive2 gain gain2
    cutoffTransformValue scaledResonanceValue].
  set (s := state f !!! ch) in *.
  set (b0 := mul (add (mul (cutoffTransformValue f) km1) c1) k0_769) in *.
  set (b1 := mul (add (mul (cutoffTransformValue f) km1) c1) k0_230) in *.
  assert (Hdx : is_zero (mul (gain f) (saturationLUT (mul (drive f) x))) = true).
  { apply mul_zero_r; [exact Fg|]. apply Hlut. now apply mul_zero_r. }
  set (dx := mul (gain f) (saturationLUT (mul (drive f) x))) in *.
  assert (Ha : is_zero (add dx (mul (mul (scaledResonanceValue f) km4)
                 (sub (mul (gain2 f) (saturationLUT (mul (drive2 f) (e4 s))))
                      (mul dx (comp f))))) = true).
  { apply add_zero_zero; [exact Hdx|]. apply mul_zero_r; [exact Fres|].
    apply sub_zero_zero.
    - apply mul_zero_r; [exact Fg2|]. apply Hlut. now apply mul_zero_r.
    - now apply mul_zero_l. }
  set (a := add dx _) in *.
  assert (Hstage : forall p q r, is_zero p = true -> is_zero q = true -> is_zero r = true ->
            is_zero (add (add (mul b1 p) (mul (cutoffTransformValue f) q)) (mul b0 r)) = true).
  { intros p q r Hp Hq Hr. repeat apply add_zero_zero; now apply mul_zero_r. }
  pose proof (Hstage _ _ _ Z0 Z1 Ha) as Hb. set (b := add (add (mul b1 (e0 s)) _) _) in *.
  pose proof (Hstage _ _ _ Z1 Z2 Hb) as Hc. set (c := add (add (mul b1 (e1 s)) _) _) in *.
  pose proof (Hstage _ _ _ Z2 Z3 Hc) as Hd. set (d := add (add (mul b1 (e2 s)) _) _) in *.
  pose proof (Hstage _ _ _ Z3 Z4 Hd) as He. set (e := add (add (mul b1 (e3 s)) _) _) in *.
  split.
  - repeat apply add_zero_zero; now apply mul_zero_l.
  - unfold quiet. cbn [state]. rewrite length_insert.
    rewrite list_lookup_total_insert_eq by exact Hch.
    split; [exact Hch|]. split; [repeat split; assumption|exact Hfin].
Qed.

Lemma add_zero_l_nonzero (z y : f32) : is_zero z = true -> is_zero y = false -> add z y = y.
Proof. destruct z as [[]| | |], y as [|[]| |]; simpl; try discriminate; reflexivity. Qed.

(** X15.  In the 24 dB lowpass mode the output is the last stage times 1.2f:
    [setMode (LPF24)] leaves the weights (0, 0, 0, 0, 1.2f), and with weights
    of that shape, if the four earlier stage values of the call are finite,
    the output is [e * A[4]] (a zero when that product is a zero). *)
Theorem lpf24_outputs_last_stage (x : f32) (ch : nat) (f g : @t Smoother) :
  (mode g <> LPF24 -> A (setMode snap_to_target LPF24 g) = A5 pzero pzero pzero pzero k1_2) /\
  ((ch < length (state f))%nat ->
   e0 (A f) = pzero -> e1 (A f) = pzero -> e2 (A f) = pzero -> e3 (A f) = pzero ->
   let out := (processSample saturationLUT x ch f).1 in
   let s' := state (processSample saturationLUT x ch f).2 !!! ch in
   is_finite (e0 s') = true -> is_finite (e1 s') = true ->
   is_finite (e2 s') = true -> is_finite (e3 s') = true ->
   (is_zero (mul (e4 s') (e4 (A f))) = false -> out = mul (e4 s') (e4 (A f))) /\
   (is_zero (mul (e4 s') (e4 (A f))) = true -> is_zero out = true)).
Proof.
  split.
  - intros Hne. unfold setMode.
    destruct (Mode_eqb LPF24 (mode g)) eqn:E; [apply Mode_eqb_eq in E; congruence|].
    reflexivity.
  - intros Hch A0 A1 A2 A3 out s'. subst out s'. unfold processSample.
    cbn [fst snd state A]. rewrite list_lookup_total_insert_eq by exact Hch.
    cbn [e0 e1 e2 e3 e4]. rewrite A0, A1, A2, A3.
    intros F0 F1 F2 F3.
    match goal with
    | |- context [add (add (add (add (mul ?a pzero) (mul ?b pzero)) (mul ?c pzero))
                           (mul ?d pzero)) ?y] =>
        assert (Hz : is_zero (add (add (add (mul a pzero) (mul b pzero)) (mul c pzero))
                                   (mul d pzero)) = true)
          by (repeat apply add_zero_zero; now apply mul_zero_r);
        set (z := add (add (add (mul a pzero) (mul b pzero)) (mul c pzero)) (mul d pzero)) in *;
        set (last := y) in *
    end.
    split.
    + intros Hnz. now apply add_zero_l_nonzero.
    + intros Hy. now apply add_zero_zero.
Qed.

(** X16.  A NaN never leaves a ladder channel: when one of the five stage
    values of a channel is a NaN, the output of a call on that channel is a
    NaN and one of the five values it leaves is a NaN again, whatever the
    input, the parameters and the look-up table are. *)
Theorem ladder_nan_is_sticky (x : f32) (ch : nat) (f : @t Smoother) :
  (ch < length (state f))%nat -> any_nan5 (state f !!! ch) ->
  is_nan (processSample saturationLUT x ch f).1 = true /\
  any_nan5 (state (processSample saturationLUT x ch f).2 !!! ch).
Proof.
  intros Hch Hn. unfold processSample. cbn [fst snd state A].
  rewrite list_lookup_total_insert_eq by exact Hch.
  unfold any_nan5 in *. cbn [e0 e1 e2 e3 e4].
  set (s := state f !!! ch) in *.
  assert (L : forall p q, is_nan p = true -> is_nan (add p q) = true /\ is_nan (mul p q) = true)
    by (intros p q Hp; split; apply nan_absorbs; auto).
  assert (Rr : forall p q, is_nan q = true -> is_nan (add p q) = true /\ is_nan (mul p q) = true)
    by (intros p q Hq; split; apply nan_absorbs; auto).
  set (a := add (mul (gain f) _) _).
  set (b0 := mul (add (mul (cutoffTransformValue f) km1) c1) k0_769).
  set (b1 := mul (add (mul (cutoffTransformValue f) km1) c1) k0_230).
  set (a1 := cutoffTransformValue f).
  set (b := add (add (mul b1 (e0 s)) (mul a1 (e1 s))) (mul b0 a)).
  set (c := add (add (mul b1 (e1 s)) (mul a1 (e2 s))) (mul b0 b)).
  set (d := add (add (mul b1 (e2 s)) (mul a1 (e3 s))) (mul b0 c)).
  set (e := add (add (mul b1 (e3 s)) (mul a1 (e4 s))) (mul b0 d)).
  assert (Hbc : is_nan b = true -> is_nan c = true)
    by (intros Hb; apply Rr, Rr, Hb).
  assert (Hcd : is_nan c = true -> is_nan d = true)
    by (intros Hc; apply Rr, Rr, Hc).
  assert (Hde : is_nan d = true -> is_nan e = true)
    by (intros Hd; apply Rr, Rr, Hd).
  assert (He : is_nan e = true ->
               is_nan (add (add (add (add (mul a (e0 (A f))) (mul b (e1 (A f))))
                                     (mul c (e2 (A f)))) (mul d (e3 (A f))))
                           (mul e (e4 (A f)))) = true)
    by (intros H; apply Rr, L, H).
  assert (Hb0 : is_nan (e0 s) = true -> is_nan b = true)
    by (intros H; apply L, L, Rr, H).
  assert (Hb1 : is_nan (e1 s) = true -> is_nan b = true)
    by (intros H; apply L, Rr, Rr, H).
  assert (Hc2 : is_nan (e2 s) = true -> is_nan c = true)
    by (intros H; apply L, Rr, Rr, H).
  assert (Hd3 : is_nan (e3 s) = true -> is_nan d = true)
    by (intros H; apply L, Rr, Rr, H).
  assert (He4 : is_nan (e4 s) = true -> is_nan e = true)
    by (intros H; apply L, Rr, Rr, H).
  destruct Hn as [H|[H|[H|[H|H]]]]; (split; [apply He|]); auto 10.
Qed.

End LadderTheorems.



Lemma hard_clip_within_one (v : f32) : within_one (hard_clip v).
Proof.
  unfold hard_clip, within_one. destruct (is_nan v) eqn:E; [split; reflexivity|].
  now apply clamp_bounds.
Qed.

Lemma later_stages_do_not_feed_back_witness :
  (Z.land (Z.shiftr 0 2) 3 =? 0) = (Z.land (Z.shiftr 1 2) 3 =? 0) /\
  (Z.to_nat (Z.land 0 3) + 1 <= Z.to_nat (Z.land 1 3) + 1)%nat /\
  take (2 * (Z.to_nat (Z.land 0 3) + 1))
       (R (ResonanceWarp.process (fm := Samples.fastmath_approx) 1 scenario_unit (set_ps1 c1)).2)
  = take (2 * (Z.to_nat (Z.land 0 3) + 1))
       (R (ResonanceWarp.process (fm := Samples.fastmath_approx) 0 scenario_unit (set_ps1 c1)).2).
Proof.
  assert (H1 : (Z.land (Z.shiftr 0 2) 3 =? 0) = (Z.land (Z.shiftr 1 2) 3 =? 0)) by reflexivity.
  assert (H2 : (Z.to_nat (Z.land 0 3) + 1 <= Z.to_nat (Z.land 1 3) + 1)%nat) by (simpl; lia).
  split; [exact H1|]. split; [exact H2|].
  exact (proj1 (later_stages_do_not_feed_back (fm := Samples.fastmath_approx) 0 1
                  scenario_unit (set_ps1 c1) H1 H2)).
Defined.

Lemma active_registers_are_saturated_witness :
  (forall v, within_one (fasttanh_lane (FastMath := fastmath_clipped) v)) /\
  (forall v, within_one (softclip_lane (FastMath := fastmath_clipped) v)) /\
  (1 < 2 * (Z.to_nat (Z.land 0 3) + 1))%nat /\ (1 < length (R scenario_unit))%nat /\
  within_one (get_lane L0
    (R (ResonanceWarp.process (fm := fastmath_clipped) 0 scenario_unit (set_ps1 c5)).2
       !!! 1%nat)).
Proof.
  assert (H1 : (1 < 2 * (Z.to_nat (Z.land 0 3) + 1))%nat) by (simpl; lia).
  assert (H2 : (1 < length (R scenario_unit))%nat) by (simpl; lia).
  split; [exact hard_clip_within_one|]. split; [exact hard_clip_within_one|].
  split; [exact H1|]. split; [exact H2|].
  exact (active_registers_are_saturated (fm := fastmath_clipped) within_one 0 scenario_unit
           (set_ps1 c5) 1 L0 hard_clip_within_one hard_clip_within_one H1 H2).
Defined.

Lemma subtype_low_bits_decide_witness :
  4 mod 4 = 12 mod 4 /\ ((4 / 4) mod 4 =? 0) = ((12 / 4) mod 4 =? 0) /\
  ResonanceWarp.process (fm := Samples.fastmath_approx) 4 scenario_unit (set_ps1 c1) =
  ResonanceWarp.process (fm := Samples.fastmath_approx) 12 scenario_unit (set_ps1 c1).
Proof.
  assert (H1 : 4 mod 4 = 12 mod 4) by reflexivity.
  assert (H2 : ((4 / 4) mod 4 =? 0) = ((12 / 4) mod 4 =? 0)) by reflexivity.
  split; [exact H1|]. split; [exact H2|].
  exact (proj1 (subtype_low_bits_decide (fm := Samples.fastmath_approx) 4 12
                  scenario_unit (set_ps1 c1) H1 H2)).
Defined.

Lemma k35_nan_is_sticky_witness :
  let x := M128 S754_nan c1 c1 c1 in
  wf_state scenario_unit /\ (poisoned L0 scenario_unit \/ nan_at L0 x) /\
  Forall (nan_at L0)
    (process_block (K35Filter.process_lp (fm := Samples.fastmath_approx)) scenario_unit
       [x; set_ps1 c1; set_ps1 c0]).1.
Proof.
  intros x.
  assert (Hwf : wf_state scenario_unit) by (repeat split; simpl; lia).
  assert (Hx : poisoned L0 scenario_unit \/ nan_at L0 x) by (right; reflexivity).
  split; [exact Hwf|]. split; [exact Hx|].
  exact (proj1 (k35_nan_is_sticky (fm := Samples.fastmath_approx) L0 scenario_unit x
                  [set_ps1 c1; set_ps1 c0] Hwf Hx)).
Defined.

Lemma resonancewarp_nan_in_nan_out_witness :
  let x := M128 c1 S754_nan c1 c1 in
  nan_at L1 x /\
  nan_at L1 (ResonanceWarp.process (fm := Samples.fastmath_approx) 3 scenario_unit x).1.
Proof.
  intros x. assert (Hx : nan_at L1 x) by reflexivity.
  split; [exact Hx|].
  exact (resonancewarp_nan_in_nan_out (fm := Samples.fastmath_approx) L1 3 scenario_unit x Hx).
Defined.

Lemma setMode_resets_on_change_witness :
  LadderFilter.HPF24 <> LadderFilter.mode ladder_sample /\
  LadderFilter.state (LadderFilter.setMode (fun s => s) LadderFilter.HPF24 ladder_sample)
  = replicate (length (LadderFilter.state ladder_sample)) (LadderFilter.fill c0).
Proof.
  assert (H : LadderFilter.HPF24 <> LadderFilter.mode ladder_sample) by discriminate.
  split; [exact H|].
  exact (proj1 (proj1 (proj2 (setMode_resets_on_change (fun s => s) LadderFilter.HPF24
                                ladder_sample)) H)).
Defined.

Lemma channels_commute_witness :
  0%nat <> 1%nat /\
  (LadderFilter.processSample Samples.tanh_approx c2 1
     (LadderFilter.processSample Samples.tanh_approx c1 0 ladder_sample).2).2 =
  (LadderFilter.processSample Samples.tanh_approx c1 0
     (LadderFilter.processSample Samples.tanh_approx c2 1 ladder_sample).2).2.
Proof.
  assert (H : 0%nat <> 1%nat) by discriminate.
  split; [exact H|].
  exact (proj2 (proj2 (channels_commute Samples.tanh_approx c1 c2 0 1 ladder_sample H))).
Defined.

Lemma tanh_approx_zero (v : f32) : is_zero v = true -> is_zero (Samples.tanh_approx v) = true.
Proof. destruct v as [[]| | |]; intros H; try discriminate H; reflexivity. Qed.

Lemma ladder_silence_witness :
  let g := (LadderFilter.processSample Samples.tanh_approx c1 0 ladder_sample).2 in
  (LadderProps.quiet 0 ladder_sample /\ is_zero c0 = true /\
   is_zero (LadderFilter.processSample Samples.tanh_approx c0 0 ladder_sample).1 = true) /\
  ((0 < length (LadderFilter.state g))%nat /\ LadderProps.finite_params g /\
   is_zero (LadderFilter.e0 (LadderFilter.state g !!! 0%nat)) = false /\
   LadderProps.quiet 0 (LadderFilter.reset (fun s => s) g)).
Proof.
  intros g.
  assert (Hq : LadderProps.quiet 0 ladder_sample) by (vm_compute; repeat split; lia).
  assert (Hx : is_zero c0 = true) by reflexivity.
  assert (Hg : (0 < length (LadderFilter.state g))%nat) by (vm_compute; lia).
  assert (Hf : LadderProps.finite_params g) by (vm_compute; repeat split).
  assert (Hn : is_zero (LadderFilter.e0 (LadderFilter.state g !!! 0%nat)) = false)
    by reflexivity.
  destruct (ladder_silence (fun s => s) Samples.tanh_approx c0 0 ladder_sample g)
    as [Hs Hr].
  split.
  - split; [exact Hq|]. split; [exact Hx|].
    exact (proj1 (Hs tanh_approx_zero Hq Hx)).
  - split; [exact Hg|]. split; [exact Hf|]. split; [exact Hn|].
    exact (proj2 (Hr Hg) Hf).
Defined.

Lemma lpf24_outputs_last_stage_witness :
  let f := LadderFilter.setMode (fun s => s) LadderFilter.LPF24 ladder_sample in
  let r := LadderFilter.processSample Samples.tanh_approx c1 0 f in
  LadderFilter.mode ladder_sample <> LadderFilter.LPF24 /\
  (0 < length (LadderFilter.state f))%nat /\
  is_zero (mul (LadderFilter.e4 (LadderFilter.state r.2 !!! 0%nat))
               (LadderFilter.e4 (LadderFilter.A f))) = false /\
  r.1 = mul (LadderFilter.e4 (LadderFilter.state r.2 !!! 0%nat))
            (LadderFilter.e4 (LadderFilter.A f)).
Proof.
  intros f r.
  assert (Hm : LadderFilter.mode ladder_sample <> LadderFilter.LPF24) by discriminate.
  assert (Hch : (0 < length (LadderFilter.state f))%nat) by (simpl; lia).
  assert (Hnz : is_zero (mul (LadderFilter.e4 (LadderFilter.state r.2 !!! 0%nat))
                             (LadderFilter.e4 (LadderFilter.A f))) = false) by reflexivity.
  split; [exact Hm|]. split; [exact Hch|]. split; [exact Hnz|].
  exact (proj1 (proj2 (lpf24_outputs_last_stage (fun s => s) Samples.tanh_approx c1 0 f
                         ladder_sample) Hch eq_refl eq_refl eq_refl eq_refl
                  eq_refl eq_refl eq_refl eq_refl) Hnz).
Defined.

Lemma ladder_nan_is_sticky_witness :
  let f := LadderFilter.Build [LadderFilter.A5 c0 S754_nan c0 c0 c0]
             (LadderFilter.A ladder_sample) LadderFilter.k0_5 LadderFilter.LPF12
             LadderFilter.k1_2 c1 c1 c1 c0_5 c0_1 tt tt in
  (0 < length (LadderFilter.state f))%nat /\
  LadderProps.any_nan5 (LadderFilter.state f !!! 0%nat) /\
  is_nan (LadderFilter.processSample Samples.tanh_approx c1 0 f).1 = true.
Proof.
  intros f.
  assert (Hch : (0 < length (LadderFilter.state f))%nat) by (simpl; lia).
  assert (Hn : LadderProps.any_nan5 (LadderFilter.state f !!! 0%nat))
    by (right; left; reflexivity).
  split; [exact Hch|]. split; [exact Hn|].
  exact (proj1 (ladder_nan_is_sticky Samples.tanh_approx c1 0 f Hch Hn)).
Defined.
